(** * sync.js: MongoDB -> Meilisearch synchroniser

    A shallow embedding of [src/sync.js]: the configured [transform] of the
    [prices] collection, the bulk loader of [syncCollection], the change
    stream handlers and the restart timer, followed by the properties of the
    specification that were checked against them. *)

From Stdlib Require Import ZArith Lia PrimFloat SpecFloat.
From Stdlib Require FloatOps FloatAxioms Uint63.
From Corelib Require Uint63Axioms.
From stdpp Require Import base option list gmap strings pretty.

Local Open Scope string_scope.
Local Open Scope list_scope.
Set Warnings "-register-all".

(** ** JavaScript values

    The values a BSON document deserialises to: primitives, [ObjectId]s,
    [Date]s, arrays and embedded documents.  Numbers are IEEE 754 doubles.
    A [Date] carries its time value: an integral number of milliseconds,
    or [None] for the NaN of an invalid date.  An embedded document lists
    its own properties; none of them is callable. *)

Inductive value : Type :=
| VUndefined
| VNull
| VBool (b : bool)
| VNum (n : float)
| VStr (s : string)
| VObjectId (hex : string)
| VDate (tv : option Z)
| VArr (items : list value)
| VObj (fields : list (string * value)).

(** A source record is a plain object: its own properties, by name. *)
Definition record : Type := list (string * value).

Fixpoint own_property (k : string) (o : record) : option value :=
  match o with
  | [] => None
  | (k', v) :: rest => if String.eqb k k' then Some v else own_property k rest
  end.

(** [o.k]: reading an absent property yields [undefined]. *)
Definition get (k : string) (o : record) : value :=
  match own_property k o with
  | Some v => v
  | None => VUndefined
  end.

(** ToBoolean. *)
Definition truthy (v : value) : bool :=
  match v with
  | VUndefined | VNull => false
  | VBool b => b
  | VNum n => negb (is_zero n || is_nan n)
  | VStr s => match s with EmptyString => false | String _ _ => true end
  | VObjectId _ | VDate _ | VArr _ | VObj _ => true
  end.

(** [typeof v === 'object'] (which holds of [null]). *)
Definition typeof_object (v : value) : bool :=
  match v with
  | VNull | VObjectId _ | VDate _ | VArr _ | VObj _ => true
  | VUndefined | VBool _ | VNum _ | VStr _ => false
  end.

(** [a || b] *)
Definition or_else (a b : value) : value := if truthy a then a else b.

(** ** Exceptions *)

Inductive exn : Type :=
| TypeError (what : string)
| ServiceError (what : string).

Inductive result (A : Type) : Type :=
| Ok (a : A)
| Throw (e : exn).
Arguments Ok {A} a.
Arguments Throw {A} e.

#[global] Instance result_ret : MRet result := fun _ a => Ok a.
#[global] Instance result_bind : MBind result := fun _ _ f r =>
  match r with
  | Ok a => f a
  | Throw e => Throw e
  end.
#[global] Instance result_fmap : FMap result := fun _ _ f r =>
  match r with
  | Ok a => Ok (f a)
  | Throw e => Throw e
  end.

Definition is_Ok {A} (r : result A) : bool :=
  match r with Ok _ => true | Throw _ => false end.

(** [arr.map(f)] for an [f] that may throw: elements are visited in order
    and the first exception aborts the call. *)
Fixpoint map_result {A B} (f : A -> result B) (l : list A) : result (list B) :=
  match l with
  | [] => Ok []
  | x :: rest => y ← f x; ys ← map_result f rest; Ok (y :: ys)
  end.

(** ** The parts of the runtime that depend on the engine and its time zone *)

Class Runtime : Type := {
  (** Number.prototype.toString, radix 10 *)
  Number_toString : float -> string;
  (** Date.prototype.toString of a time value *)
  Date_toString : option Z -> string;
  (** Date.parse: a time value as a number, NaN when the string is no date *)
  Date_parse : string -> float;
}.

Section Conversions.
Context {rt : Runtime}.

(** ToString, the conversion a template literal and [Array.prototype.join]
    apply.  An object is converted through its [toString] method: an array
    joins its elements with commas, [undefined] and [null] elements giving
    the empty string.  An embedded document inherits
    Object.prototype.toString unless it has an own property of that name,
    which, coming from BSON, is not callable; its [valueOf] then yields no
    primitive either, and the conversion throws. *)
Fixpoint ToString (v : value) : result string :=
  match v with
  | VUndefined => Ok "undefined"
  | VNull => Ok "null"
  | VBool b => Ok (if b then "true" else "false")
  | VNum n => Ok (Number_toString n)
  | VStr s => Ok s
  | VObjectId hex => Ok hex
  | VDate tv => Ok (Date_toString tv)
  | VArr items =>
      (fix join (l : list value) : result string :=
         match l with
         | [] => Ok ""
         | x :: rest =>
             s ← match x with
                 | VUndefined | VNull => Ok ""
                 | _ => ToString x
                 end;
             match rest with
             | [] => Ok s
             | _ :: _ => r ← join rest; Ok (String.append s (String.append "," r))
             end
         end) items
  | VObj fields =>
      match own_property "toString" fields with
      | Some _ => Throw (TypeError "Cannot convert object to primitive value")
      | None => Ok "[object Object]"
      end
  end.

(** [v.toString()].  On [undefined] and [null] the property read throws;
    on an embedded document whose own property [toString] hides the
    inherited method, the call does. *)
Definition toString (v : value) : result string :=
  match v with
  | VUndefined => Throw (TypeError "Cannot read properties of undefined")
  | VNull => Throw (TypeError "Cannot read properties of null")
  | VObj fields =>
      match own_property "toString" fields with
      | Some _ => Throw (TypeError "toString is not a function")
      | None => Ok "[object Object]"
      end
  | VBool _ | VNum _ | VStr _ | VObjectId _ | VDate _ | VArr _ => ToString v
  end.

(** ToPrimitive with the default hint, as the [Date] constructor applies it
    to a value that is not itself a [Date].  The inherited [valueOf]
    returns the object, so the result is that of the [toString] method. *)
Definition ToPrimitive (v : value) : result value :=
  match v with
  | VObjectId _ | VDate _ | VArr _ | VObj _ => VStr <$> ToString v
  | VUndefined | VNull | VBool _ | VNum _ | VStr _ => Ok v
  end.

(** ToNumber of a primitive that is not a string. *)
Definition ToNumber (v : value) : float :=
  match v with
  | VNull | VBool false => zero
  | VBool true => one
  | VNum n => n
  | _ => nan
  end.

(** TimeClip: NaN unless finite and at most 8.64e15 in absolute value,
    else the number truncated to an integer.  The double is read as
    sign, mantissa and exponent: its absolute value is [m * 2^e]. *)
Definition maxTime : Z := 8640000000000000.

Definition TimeClip (t : float) : option Z :=
  match FloatOps.Prim2SF t with
  | S754_nan | S754_infinity _ => None
  | S754_zero _ => Some 0%Z
  | S754_finite s m e =>
      let too_large :=
        if (0 <=? e)%Z then (maxTime <? Z.pos m * 2 ^ e)%Z
        else (maxTime * 2 ^ (- e) <? Z.pos m)%Z in
      if too_large then None
      else
        let mag := if (0 <=? e)%Z then (Z.pos m * 2 ^ e)%Z
                   else (Z.pos m / 2 ^ (- e))%Z in
        Some (if s then (- mag)%Z else mag)
  end.

(** TimeClip of a number that is already NaN or integral. *)
Definition TimeClip_integral (tv : option Z) : option Z :=
  match tv with
  | Some t => if (Z.abs t <=? maxTime)%Z then Some t else None
  | None => None
  end.

(** The time value of [new Date(v)]: that of [v] when [v] is a [Date],
    else the primitive of [v] parsed, when a string, or converted to a
    number; in each case passed through TimeClip. *)
Definition Date_new (v : value) : result (option Z) :=
  match v with
  | VDate tv => Ok (TimeClip_integral tv)
  | _ =>
      p ← ToPrimitive v;
      Ok (match p with
          | VStr s => TimeClip (Date_parse s)
          | _ => TimeClip (ToNumber p)
          end)
  end.

(** [getTime()]: the time value as a number. *)
Definition number_of_Z (z : Z) : float :=
  let f := of_uint63 (Uint63Axioms.of_Z (Z.abs z)) in
  if (z <? 0)%Z then (- f)%float else f.

Definition getTime (tv : option Z) : float :=
  match tv with
  | Some t => number_of_Z t
  | None => nan
  end.

End Conversions.

(** ** The search document of the [prices] index *)

Record SearchDocument : Type := mkDoc {
  id : string;
  code : value;
  name : value;
  price : value;
  balance : value;
  measure : value;
  userId : value;
  specOfferId : value;
  priceId : value;
  category : list value;
  region : list value;
  date : value;
}.

(** ** The configuration of the [prices] collection *)

Module Prices.
Section Transform.
Context {rt : Runtime}.

(** [x ? x.toString() : null] *)
Definition ref_string (x : value) : result value :=
  if truthy x then VStr <$> toString x else Ok VNull.

(** [Array.isArray(x) ? x.map(c => typeof c === 'object' ? c.toString() : c) : []] *)
Definition ref_strings (x : value) : result (list value) :=
  match x with
  | VArr items =>
      map_result (fun c => if typeof_object c then VStr <$> toString c else Ok c) items
  | _ => Ok []
  end.

(** [x ? new Date(x).getTime() : null] *)
Definition timestamp (x : value) : result value :=
  if truthy x then (fun tv => VNum (getTime tv)) <$> Date_new x else Ok VNull.

(** [COLLECTIONS_TO_SYNC[0].transform] (sync.js, lines 23-45).  The
    properties of the object literal are evaluated in source order, so
    the first expression that throws decides the exception. *)
Definition transform (doc : record) : result SearchDocument :=
  id_ ← toString (get "_id" doc);
  let code_ := or_else (get "Code" doc) VNull in
  let name_ := or_else (get "Name" doc) VNull in
  let price_ := or_else (get "Price" doc) (VNum zero) in
  let balance_ := or_else (get "Balance" doc) (VNum zero) in
  let measure_ := or_else (get "Measure" doc) VNull in
  userId_ ← ref_string (get "User" doc);
  specOfferId_ ← ref_string (get "SpecOffer" doc);
  priceId_ ← ref_string (get "PriceId" doc);
  category_ ← ref_strings (get "Category" doc);
  region_ ← ref_strings (get "Region" doc);
  date_ ← timestamp (get "Date" doc);
  Ok {| id := id_; code := code_; name := name_; price := price_;
        balance := balance_; measure := measure_; userId := userId_;
        specOfferId := specOfferId_; priceId := priceId_;
        category := category_; region := region_; date := date_ |}.

End Transform.
End Prices.

Record IndexSettings : Type := {
  searchableAttributes : list string;
  filterableAttributes : list string;
  sortableAttributes : list string;
  rankingRules : list string;
  typoTolerance_enabled : bool;
  pagination_maxTotalHits : N;
}.

(** An entry of [COLLECTIONS_TO_SYNC].  [transform] returns a document, or
    [None] for a falsy result, which [filter(Boolean)] and the handlers'
    [if (transformed)] leave out. *)
Record SyncConfig : Type := {
  collection : string;
  index : string;
  primaryKey : string;
  transform : record -> result (option SearchDocument);
  settings : IndexSettings;
}.

Definition prices `{Runtime} : SyncConfig := {|
  collection := "prices";
  index := "prices";
  primaryKey := "id";
  (* an object literal is truthy *)
  transform := fun doc => Some <$> Prices.transform doc;
  settings := {|
    searchableAttributes := ["name"; "code"];
    filterableAttributes :=
      ["category"; "region"; "price"; "balance"; "measure"; "userId";
       "specOfferId"; "priceId"];
    sortableAttributes := ["price"; "balance"; "date"];
    rankingRules :=
      ["words"; "typo"; "proximity"; "attribute"; "sort"; "exactness"];
    typoTolerance_enabled := true;
    pagination_maxTotalHits := 10000%N;
  |};
|}.

Definition COLLECTIONS_TO_SYNC `{Runtime} : list SyncConfig := [prices].

(** ** The process and the services it talks to

    The state the program can observe or change through its calls: the
    documents of the Meilisearch index, the change streams it has opened,
    its pending timers, and the journal of the calls it has made.  Whether
    a call of the index service is rejected is not decided by the program:
    the outcomes of the coming document writes are laid down in
    [write_faults] and those of the coming index administration calls
    ([getRawInfo], [createIndex], [updateSettings]) in [admin_faults]
    ([true]: the call fails), a call past the end of its list succeeding.
    Collection reads are taken to succeed. *)

Inductive ChangeOperation : Type :=
| op_insert
| op_update
| op_replace
| op_delete.

Record ChangeEvent : Type := {
  operationType : ChangeOperation;
  documentKey : record;
  (** absent, or [null] when the lookup finds the record gone *)
  fullDocument : option record;
}.

Inductive log_line : Type :=
| LogIndexExists (indexName : string)
| LogCreatingIndex (indexName : string)
| LogSettingsUpdated (indexName : string)
| LogInitialSync (collectionName indexName : string)
| LogLoaded (total : nat)
| LogInitialSyncDone (total : nat) (indexName : string)
| LogWatching (collectionName : string)
| LogAdded (label : string) (docId : string)
| LogUpdated (label : string) (docId : string)
| LogDeleted (docId : string).

Inductive error_line : Type :=
| ErrChangeHandler (err : exn)
| ErrChangeStream (collectionName : string) (message : string)
| ErrUncaught (err : exn).

Inductive call : Type :=
| Find (skip limit : nat)
| GetRawInfo (indexName : string)
| CreateIndex (indexName primaryKey : string)
| UpdateSettings (s : IndexSettings)
| AddDocuments (docs : list SearchDocument)
| UpdateDocuments (docs : list SearchDocument)
| DeleteDocument (docId : string)
| Watch (stream : nat)
| SetTimeout (delay : N)
| ConsoleLog (l : log_line)
| ConsoleError (l : error_line)
(** a rejected promise that nothing handles: Node prints the error and
    ends the process with exit code 1 *)
| UnhandledRejection (err : exn).

Record World : Type := mkWorld {
  index_exists : bool;
  (** the documents of the index, by [id] *)
  stored : gmap string SearchDocument;
  write_faults : list bool;
  admin_faults : list bool;
  (** the change streams opened so far, [true] while a stream is open *)
  streams : list bool;
  (** due times of the pending restart timers, oldest first *)
  timers : list N;
  (** milliseconds since the process started *)
  clock : N;
  journal : list call;
}.

Definition M (A : Type) : Type := World -> result A * World.

#[global] Instance M_ret : MRet M := fun _ a w => (Ok a, w).
#[global] Instance M_bind : MBind M := fun _ _ f m w =>
  match m w with
  | (Ok a, w') => f a w'
  | (Throw e, w') => (Throw e, w')
  end.

Definition throw {A} (e : exn) : M A := fun w => (Throw e, w).

(** A synchronous computation inside an asynchronous function. *)
Definition lift {A} (r : result A) : M A := fun w => (r, w).

(** [try { body } catch (err) { handler(err) }] *)
Definition try_catch {A} (body : M A) (handler : exn -> M A) : M A := fun w =>
  match body w with
  | (Ok a, w') => (Ok a, w')
  | (Throw e, w') => handler e w'
  end.

(** The world after one more call is journalled. *)
Definition log_call (c : call) (w : World) : World :=
  mkWorld (index_exists w) (stored w) (write_faults w) (admin_faults w)
    (streams w) (timers w) (clock w) (journal w ++ [c]).

Definition record_call (c : call) : M unit := fun w => (Ok (), log_call c w).

Definition console_log (l : log_line) : M unit := record_call (ConsoleLog l).
Definition console_error (l : error_line) : M unit := record_call (ConsoleError l).

(** [collection.find({}).skip(skip).limit(limit).toArray()] over a
    collection whose content is [db] for the duration of the scan.  A
    limit of 0 sets no limit. *)
Definition find (db : list record) (skip limit : nat) : M (list record) :=
  _ ← record_call (Find skip limit);
  mret (if (limit =? 0)%nat then drop skip db else take limit (drop skip db)).

Definition require_index : M unit := fun w =>
  if index_exists w then (Ok (), w)
  else (Throw (ServiceError "index_not_found"), w).

Definition set_index_exists : M unit := fun w =>
  (Ok (), mkWorld true (stored w) (write_faults w) (admin_faults w)
            (streams w) (timers w) (clock w) (journal w)).

(** The outcome of the next index administration call. *)
Definition next_admin : M unit := fun w =>
  match admin_faults w with
  | [] => (Ok (), w)
  | fails :: later =>
      let w' := mkWorld (index_exists w) (stored w) (write_faults w) later
                  (streams w) (timers w) (clock w) (journal w) in
      if fails : bool then (Throw (ServiceError "request failed"), w')
      else (Ok (), w')
  end.

(** [index.getRawInfo()] fails when the request does, and when the index
    does not exist. *)
Definition getRawInfo (indexName : string) : M unit :=
  _ ← record_call (GetRawInfo indexName);
  _ ← next_admin;
  require_index.

(** [client.createIndex(indexName, { primaryKey })]: the request is
    accepted also when the index is there already. *)
Definition createIndex (indexName pk : string) : M unit :=
  _ ← record_call (CreateIndex indexName pk);
  _ ← next_admin;
  set_index_exists.

Definition updateSettings (s : IndexSettings) : M unit :=
  _ ← record_call (UpdateSettings s);
  next_admin.

(** The outcome of the next document write. *)
Definition next_write : M unit := fun w =>
  match write_faults w with
  | [] => (Ok (), w)
  | fails :: later =>
      let w' := mkWorld (index_exists w) (stored w) later (admin_faults w)
                  (streams w) (timers w) (clock w) (journal w) in
      if fails : bool then (Throw (ServiceError "write rejected"), w')
      else (Ok (), w')
  end.

Definition set_documents (f : gmap string SearchDocument -> gmap string SearchDocument)
  : M unit := fun w =>
  (Ok (), mkWorld (index_exists w) (f (stored w)) (write_faults w)
            (admin_faults w) (streams w) (timers w) (clock w) (journal w)).

(** The contract of the index: it keeps one document per [id], and a
    later document replaces an earlier one with the same [id]. *)
Definition upsert (m : gmap string SearchDocument) (d : SearchDocument)
  : gmap string SearchDocument := <[id d := d]> m.

Definition upsert_all (docs : list SearchDocument)
  (m : gmap string SearchDocument) : gmap string SearchDocument :=
  foldl upsert m docs.

Definition addDocuments (docs : list SearchDocument) : M unit :=
  _ ← record_call (AddDocuments docs);
  _ ← next_write;
  set_documents (upsert_all docs).

(** [updateDocuments] merges the fields it is given into the stored
    document; a [SearchDocument] carries every field, so it replaces. *)
Definition updateDocuments (docs : list SearchDocument) : M unit :=
  _ ← record_call (UpdateDocuments docs);
  _ ← next_write;
  set_documents (upsert_all docs).

Definition deleteDocument (docId : string) : M unit :=
  _ ← record_call (DeleteDocument docId);
  _ ← next_write;
  set_documents (delete docId).

(** [collection.watch(pipeline, ...)]: a new change stream, open. *)
Definition watch : M nat := fun w =>
  let sid := length (streams w) in
  (Ok sid, mkWorld (index_exists w) (stored w) (write_faults w)
             (admin_faults w) (streams w ++ [true]) (timers w) (clock w)
             (journal w ++ [Watch sid])).

(** [setTimeout(() => syncCollection(mongoClient, config), delay)] *)
Definition setTimeout (delay : N) : M unit := fun w =>
  (Ok (), mkWorld (index_exists w) (stored w) (write_faults w)
            (admin_faults w) (streams w)
            (timers w ++ [(clock w + delay)%N]) (clock w)
            (journal w ++ [SetTimeout delay])).

Definition set_streams (f : list bool -> list bool) (w : World) : World :=
  mkWorld (index_exists w) (stored w) (write_faults w) (admin_faults w)
    (f (streams w)) (timers w) (clock w) (journal w).

Definition set_timers (ts : list N) (w : World) : World :=
  mkWorld (index_exists w) (stored w) (write_faults w) (admin_faults w)
    (streams w) ts (clock w) (journal w).

Definition advance (ms : N) (w : World) : World :=
  mkWorld (index_exists w) (stored w) (write_faults w) (admin_faults w)
    (streams w) (timers w) (clock w + ms)%N (journal w).

(** ** syncCollection *)

Section Sync.
Context {rt : Runtime}.

(** The [while (true)] loop of the initial synchronisation (lines
    114-129), [docs.map(config.transform)] throwing as soon as the
    transform throws on a record.  [fuel] bounds the number of
    iterations; [bulk_load] supplies enough of it
    ([bulk_loop_enough_fuel]). *)
Fixpoint bulk_loop (fuel : nat) (db : list record) (config : SyncConfig)
    (batchSize skip total : nat) : M (option nat) :=
  match fuel with
  | O => mret None
  | S fuel' =>
      docs ← find db skip batchSize;
      if (length docs =? 0)%nat then mret (Some total)
      else
        transformed ← lift (map_result (transform config) docs);
        let documents := omap (fun d : option SearchDocument => d) transformed in
        total' ← (if (0 <? length documents)%nat
                  then _ ← addDocuments documents;
                       let total := (total + length documents)%nat in
                       _ ← console_log (LogLoaded total);
                       mret total
                  else mret total);
        bulk_loop fuel' db config batchSize (skip + batchSize)%nat total'
  end.

(** Lines 110-129: the loop entered with [skip = 0] and [total = 0].
    The fuel is enough for every page size but 0, with which the loop of
    the source does not end on a collection that is not empty
    ([bulk_loop_no_limit]); [syncCollection] reads in pages of 5000. *)
Definition bulk_load (db : list record) (config : SyncConfig)
    (batchSize : nat) : M nat :=
  r ← bulk_loop (S (length db)) db config batchSize 0 0;
  mret (default 0%nat r).

Definition batchSize : nat := 5000.

(** Lines 88-178, up to the attachment of the change stream, whose two
    handlers follow. *)
Definition syncCollection (db : list record) (config : SyncConfig) : M unit :=
  let indexName := index config in
  _ ← try_catch
        (_ ← getRawInfo indexName;
         console_log (LogIndexExists indexName))
        (fun _ =>
           _ ← console_log (LogCreatingIndex indexName);
           createIndex indexName "id");
  _ ← updateSettings (settings config);
  _ ← console_log (LogSettingsUpdated indexName);
  _ ← console_log (LogInitialSync (collection config) indexName);
  total ← bulk_load db config batchSize;
  _ ← console_log (LogInitialSyncDone total indexName);
  _ ← console_log (LogWatching (collection config));
  _ ← watch;
  mret ().

(** [changeStream.on('change', ...)] (lines 141-172).  The handler is
    taken to run to its end before the next event is handled.  The
    template literal of a log line converts [transformed.name ||
    transformed.code] with ToString, which can throw. *)
Definition on_change (config : SyncConfig) (change : ChangeEvent) : M unit :=
  try_catch
    (docId ← lift (toString (get "_id" (documentKey change)));
     _ ← match operationType change with
         | op_insert | op_replace =>
             match fullDocument change with
             | Some fullDoc =>
                 transformed ← lift (transform config fullDoc);
                 match transformed with
                 | Some doc =>
                     _ ← addDocuments [doc];
                     label ← lift (ToString (or_else (name doc) (code doc)));
                     console_log (LogAdded label docId)
                 | None => mret ()
                 end
             | None => mret ()
             end
         | op_update | op_delete => mret ()
         end;
     _ ← match operationType change with
         | op_update =>
             match fullDocument change with
             | Some fullDoc =>
                 transformed ← lift (transform config fullDoc);
                 match transformed with
                 | Some doc =>
                     _ ← updateDocuments [doc];
                     label ← lift (ToString (or_else (name doc) (code doc)));
                     console_log (LogUpdated label docId)
                 | None => mret ()
                 end
             | None => mret ()
             end
         | op_insert | op_replace | op_delete => mret ()
         end;
     match operationType change with
     | op_delete =>
         _ ← deleteDocument docId;
         console_log (LogDeleted docId)
     | op_insert | op_update | op_replace => mret ()
     end)
    (fun err => console_error (ErrChangeHandler err)).

Definition restartDelay : N := 10000.

(** [changeStream.on('error', ...)] (lines 174-177) *)
Definition on_error (config : SyncConfig) (message : string) : M unit :=
  _ ← console_error (ErrChangeStream (collection config) message);
  setTimeout restartDelay.

(** ** The event loop

    What reaches the process after start-up: a change or an error on one
    of its change streams, the passing of time, and the firing of the
    oldest timer once it is due.  A stream that is closed delivers
    nothing.  A timer's callback calls [syncCollection] on the collection
    as it is then, [db]; the call is taken to run to its end before the
    next event.  Nothing handles the promise that call returns: when it
    is rejected the process ends.

    The program closes no stream.  The MongoDB driver closes a change
    stream on which it emits ['error']; [feed_closes_on_error] is [true]
    for that feed, and [false] for one that would leave the stream
    open. *)

Inductive event : Type :=
| ev_change (stream : nat) (change : ChangeEvent)
| ev_error (stream : nat) (message : string)
| ev_elapse (ms : N)
| ev_timer (db : list record).

Definition stream_open (stream : nat) (w : World) : bool :=
  default false (streams w !! stream).

(** The listeners that can still be handed an event. *)
Definition active_listeners (w : World) : nat :=
  length (filter (fun open => open = true) (streams w)).

Definition run {A} (m : M A) (w : World) : World := snd (m w).

(** The call of [syncCollection] in [main] (line 196), whose rejection
    [.catch(console.error)] logs. *)
Definition start (db : list record) (config : SyncConfig) (w : World) : World :=
  match syncCollection db config w with
  | (Ok _, w') => w'
  | (Throw e, w') => run (console_error (ErrUncaught e)) w'
  end.

(** The end of the process: its change streams are closed with it and
    its timers never fire. *)
Definition exit (w : World) : World :=
  mkWorld (index_exists w) (stored w) (write_faults w) (admin_faults w)
    ((fun _ => false) <$> streams w) [] (clock w) (journal w).

(** The call of [syncCollection] in the timer's callback (line 176): its
    promise has no rejection handler. *)
Definition restart (db : list record) (config : SyncConfig) (w : World) : World :=
  match syncCollection db config w with
  | (Ok _, w') => w'
  | (Throw e, w') => exit (log_call (UnhandledRejection e) w')
  end.

Definition react (config : SyncConfig) (feed_closes_on_error : bool)
    (w : World) (ev : event) : World :=
  match ev with
  | ev_change stream change =>
      if stream_open stream w then run (on_change config change) w else w
  | ev_error stream message =>
      if stream_open stream w then
        let w' := run (on_error config message) w in
        if feed_closes_on_error
        then set_streams (fun ss => <[stream := false]> ss) w'
        else w'
      else w
  | ev_elapse ms => advance ms w
  | ev_timer db =>
      match timers w with
      | due :: later =>
          if (due <=? clock w)%N then restart db config (set_timers later w)
          else w
      | [] => w
      end
  end.

Definition execute (config : SyncConfig) (feed_closes_on_error : bool)
    (events : list event) (w : World) : World :=
  foldl (react config feed_closes_on_error) w events.

(** [main] (lines 182-210), once both services are reachable: one
    [syncCollection] per configured collection, its rejection logged. *)
Definition main (db : list record) (w : World) : World :=
  foldl (fun w config => start db config w) w COLLECTIONS_TO_SYNC.

(** The state of the process when [main] is entered. *)
Definition boot (exists_ : bool) (docs : gmap string SearchDocument)
    (faults : list bool) : World :=
  mkWorld exists_ docs faults [] [] [] 0%N [].

End Sync.

(** * Notions used to state the properties *)

(** ** Values *)

Definition nullish (v : value) : bool :=
  match v with
  | VUndefined | VNull => true
  | _ => false
  end.

Definition is_null (v : value) : bool :=
  match v with
  | VNull => true
  | _ => false
  end.

(** [v] is an embedded document with an own property [toString], or an
    array that holds one. *)
Fixpoint overrides_toString (v : value) : bool :=
  match v with
  | VArr items => existsb overrides_toString items
  | VObj fields => bool_decide (is_Some (own_property "toString" fields))
  | _ => false
  end.

(** No element of the array (if [v] is one) is [null]. *)
Definition no_null_element (v : value) : bool :=
  match v with
  | VArr items => forallb (fun c => negb (is_null c)) items
  | _ => true
  end.

(** The fields whose value [transform] converts to a string. *)
Definition converted_fields : list string :=
  ["_id"; "User"; "SpecOffer"; "PriceId"; "Category"; "Region"; "Date"].

(** A record that [transform] can convert: [_id] is there, no converted
    field overrides [toString], and the arrays of references hold no
    [null]. *)
Definition convertible (d : record) : bool :=
  negb (nullish (get "_id" d))
  && forallb (fun k => negb (overrides_toString (get k d))) converted_fields
  && no_null_element (get "Category" d)
  && no_null_element (get "Region" d).

(** Where a property is tested or defaulted, only whether it is falsy
    counts; [normal] forgets which falsy value it was. *)
Definition normal (v : value) : value := if truthy v then v else VUndefined.

(** A number that sorts: any but NaN. *)
Definition sortable_number (v : value) : bool :=
  match v with
  | VNum n => negb (is_nan n)
  | _ => false
  end.

(** Induction on values, with the elements of an array as premises. *)
Section ValueInduction.
Variable P : value -> Prop.
Hypothesis Hundefined : P VUndefined.
Hypothesis Hnull : P VNull.
Hypothesis Hbool : forall b, P (VBool b).
Hypothesis Hnum : forall n, P (VNum n).
Hypothesis Hstr : forall s, P (VStr s).
Hypothesis Hobjectid : forall hex, P (VObjectId hex).
Hypothesis Hdate : forall tv, P (VDate tv).
Hypothesis Harr : forall items, Forall P items -> P (VArr items).
Hypothesis Hobj : forall fields, P (VObj fields).

Fixpoint value_array_ind (v : value) : P v :=
  match v with
  | VUndefined => Hundefined
  | VNull => Hnull
  | VBool b => Hbool b
  | VNum n => Hnum n
  | VStr s => Hstr s
  | VObjectId hex => Hobjectid hex
  | VDate tv => Hdate tv
  | VArr items =>
      Harr items
        ((fix all (l : list value) : Forall P l :=
            match l with
            | [] => List.Forall_nil P
            | x :: rest => @List.Forall_cons _ P x rest (value_array_ind x) (all rest)
            end) items)
  | VObj fields => Hobj fields
  end.
End ValueInduction.

(** ** The bulk pass *)

Definition ceil_div (n b : nat) : nat := (n + b - 1) / b.

Definition is_Find (c : call) : bool :=
  match c with
  | Find _ _ => true
  | _ => false
  end.

(** The page reads recorded in a journal. *)
Definition reads (j : list call) : list call := List.filter is_Find j.

(** The reads of a scan of [n] records in pages of [B]: one per page, and
    the one that finds nothing. *)
Definition scan (skip B n : nat) : list call :=
  (fun k => Find (skip + k * B) B) <$> seq 0 (ceil_div n B + 1).

(** The records a page read returns. *)
Definition page_at (db : list record) (skip B : nat) : list record :=
  if (B =? 0)%nat then drop skip db else take B (drop skip db).

(** Every coming document write succeeds. *)
Definition no_faults (w : World) : Prop :=
  Forall (fun fails => fails = false) (write_faults w).

(** The next document write fails. *)
Definition next_fails (w : World) : bool := hd false (write_faults w).

(** Every coming index administration call succeeds. *)
Definition no_admin_faults (w : World) : Prop :=
  Forall (fun fails => fails = false) (admin_faults w).

(** The outcomes of the index set-up (lines 93-106), as [admin_faults]
    lays them down: [getRawInfo] throws when its request fails or the
    index is missing; [createIndex], called then, and [updateSettings],
    called next, throw when their request fails. *)
Definition probe_throws (w : World) : bool :=
  hd false (admin_faults w) || negb (index_exists w).

Definition create_fails (w : World) : bool :=
  probe_throws w && hd false (tail (admin_faults w)).

Definition update_fails (w : World) : bool :=
  if probe_throws w then hd false (tail (tail (admin_faults w)))
  else hd false (tail (admin_faults w)).

Definition setup_fails (w : World) : bool := create_fails w || update_fails w.

(** The world after a document write [c] that went through, and after
    one that was rejected. *)
Definition written (c : call)
    (f : gmap string SearchDocument -> gmap string SearchDocument)
    (w : World) : World :=
  mkWorld (index_exists w) (f (stored w)) (tail (write_faults w))
    (admin_faults w) (streams w) (timers w) (clock w) (journal w ++ [c]).

Definition rejected (c : call) (w : World) : World :=
  mkWorld (index_exists w) (stored w) (tail (write_faults w))
    (admin_faults w) (streams w) (timers w) (clock w) (journal w ++ [c]).

(** [transform] does not throw on [d]. *)
Definition transforms (config : SyncConfig) (d : record) : Prop :=
  is_Ok (transform config d) = true.

(** The documents a list of records contributes: the truthy results of
    [transform]. *)
Definition documents_of (config : SyncConfig) (docs : list record)
    : list SearchDocument :=
  omap (fun d => match transform config d with
                 | Ok o => o
                 | Throw _ => None
                 end) docs.

(** The calls of the bulk pass. *)
Definition bulk_call (c : call) : Prop :=
  match c with
  | Find _ _ | AddDocuments _ | ConsoleLog (LogLoaded _) => True
  | _ => False
  end.

(** What the bulk pass leaves alone. *)
Definition same_process (w w' : World) : Prop :=
  index_exists w' = index_exists w /\ streams w' = streams w /\
  timers w' = timers w /\ clock w' = clock w.

(** What no document write and no log line touches. *)
Definition same_listeners (w w' : World) : Prop :=
  streams w' = streams w /\ timers w' = timers w /\ clock w' = clock w.

(** The calls that open a run of [syncCollection], up to the bulk pass. *)
Definition setup_calls (config : SyncConfig) (w : World) : list call :=
  GetRawInfo (index config)
  :: (if index_exists w then [ConsoleLog (LogIndexExists (index config))]
      else [ConsoleLog (LogCreatingIndex (index config));
            CreateIndex (index config) "id"])
  ++ [UpdateSettings (settings config);
      ConsoleLog (LogSettingsUpdated (index config));
      ConsoleLog (LogInitialSync (collection config) (index config))].

(** The world after a set-up in which no administration call failed. *)
Definition after_setup (config : SyncConfig) (w : World) : World :=
  mkWorld true (stored w) (write_faults w)
    (drop (if index_exists w then 2 else 3) (admin_faults w))
    (streams w) (timers w) (clock w)
    (journal w ++ setup_calls config w).

(** The calls of a set-up, as far as it gets, and the world it leaves:
    the run goes no further when [createIndex] or [updateSettings]
    fails. *)
Definition setup_trace (config : SyncConfig) (w : World) : list call :=
  GetRawInfo (index config)
  :: (if probe_throws w
      then [ConsoleLog (LogCreatingIndex (index config));
            CreateIndex (index config) "id"]
      else [ConsoleLog (LogIndexExists (index config))])
  ++ (if create_fails w then []
      else UpdateSettings (settings config)
           :: (if update_fails w then []
               else [ConsoleLog (LogSettingsUpdated (index config));
                     ConsoleLog (LogInitialSync (collection config) (index config))])).

Definition setup_world (config : SyncConfig) (w : World) : World :=
  mkWorld (index_exists w || (probe_throws w && negb (create_fails w)))
    (stored w) (write_faults w)
    (drop (1 + (if probe_throws w then 1 else 0) + (if create_fails w then 0 else 1))
       (admin_faults w))
    (streams w) (timers w) (clock w)
    (journal w ++ setup_trace config w).

(** The world once the bulk pass is over and the listener attached. *)
Definition attached (config : SyncConfig) (total : nat) (w : World) : World :=
  mkWorld (index_exists w) (stored w) (write_faults w) (admin_faults w)
    (streams w ++ [true]) (timers w) (clock w)
    (journal w ++ [ConsoleLog (LogInitialSyncDone total (index config));
                   ConsoleLog (LogWatching (collection config));
                   Watch (length (streams w))]).

(** The call that ends the handling of an upsert that went through: its
    log line, or the error line when the conversion of the label
    throws. *)
Definition upsert_line `{Runtime} (line : string -> log_line)
    (doc : SearchDocument) : call :=
  match ToString (or_else (name doc) (code doc)) with
  | Ok label => ConsoleLog (line label)
  | Throw e => ConsoleError (ErrChangeHandler e)
  end.

(** The log line of an upsert, its label left open. *)
Definition upsert_log (op : ChangeOperation) (docId : string)
    (label : string) : log_line :=
  match op with
  | op_update => LogUpdated label docId
  | op_insert | op_replace | op_delete => LogAdded label docId
  end.

(** The upsert the handler issues for an operation that is no delete. *)
Definition upsert_call (op : ChangeOperation) (doc : SearchDocument) : call :=
  match op with
  | op_update => UpdateDocuments [doc]
  | op_insert | op_replace | op_delete => AddDocuments [doc]
  end.

(** ** Listeners *)

Definition opened (ss : list bool) : nat :=
  length (filter (fun open => open = true) ss).

(** A listener is active or a restart is pending, never both and never
    two of either. *)
Definition one_pipeline (w : World) : Prop :=
  active_listeners w + length (timers w) <= 1.

(** ** Calls and effects *)

(** The calls of the bulk pass, with the sizes they may have for a page
    size [B]. *)
Definition bounded_call (B : nat) (c : call) : Prop :=
  match c with
  | Find _ limit => limit = B
  | AddDocuments docs => 0 < length docs <= B
  | ConsoleLog (LogLoaded _) => True
  | _ => False
  end.

(** Index administration calls. *)
Definition is_admin (c : call) : bool :=
  match c with
  | GetRawInfo _ | CreateIndex _ _ | UpdateSettings _ => true
  | _ => false
  end.

(** Document writes. *)
Definition is_write (c : call) : bool :=
  match c with
  | AddDocuments _ | UpdateDocuments _ | DeleteDocument _ => true
  | _ => false
  end.


(** A delete reported by the change feed. *)
Definition is_delete_change (ev : event) : bool :=
  match ev with
  | ev_change _ change =>
      match operationType change with
      | op_delete => true
      | _ => false
      end
  | _ => false
  end.



(** What a change event does to the documents of the index when the
    index accepts the write. *)
Definition index_effect `{Runtime} (config : SyncConfig) (change : ChangeEvent)
    (m : gmap string SearchDocument) : gmap string SearchDocument :=
  match toString (get "_id" (documentKey change)) with
  | Throw _ => m
  | Ok docId =>
      match operationType change with
      | op_delete => delete docId m
      | op_insert | op_update | op_replace =>
          match fullDocument change with
          | Some fullDoc =>
              match transform config fullDoc with
              | Ok (Some doc) => <[id doc := doc]> m
              | Ok None | Throw _ => m
              end
          | None => m
          end
      end
  end.

(** A reference as the index receives it: a string, or [null]. *)
Definition string_or_null (v : value) : bool :=
  match v with
  | VStr _ | VNull => true
  | _ => false
  end.

(** The elements of [x] when [x] is an array, else none. *)
Definition elements (x : value) : list value :=
  match x with
  | VArr items => items
  | _ => []
  end.

(** [createIndex] calls. *)
Definition is_create (c : call) : bool :=
  match c with CreateIndex _ _ => true | _ => false end.

(** The number of [createIndex] calls in a journal. *)
Definition creations (j : list call) : nat := length (List.filter is_create j).

(** ** Sample data

    A runtime to run the examples with.  It prints a number as its
    integer part, which is what JavaScript prints for an integral number
    below 1e21, and recognises no string as a date; none of the examples
    below turns on either choice. *)

Definition integer_part (n : float) : Z :=
  match FloatOps.Prim2SF n with
  | S754_finite s m e =>
      let mag := if (0 <=? e)%Z then (Z.pos m * 2 ^ e)%Z
                 else (Z.pos m / 2 ^ (- e))%Z in
      if s then (- mag)%Z else mag
  | _ => 0%Z
  end.

Definition example_runtime : Runtime := {|
  Number_toString := fun n =>
    if is_nan n then "NaN"
    else if is_infinity n then (if get_sign n then "-Infinity" else "Infinity")
    else pretty (integer_part n);
  Date_toString := fun tv =>
    match tv with
    | Some t => String.append "Date " (pretty t)
    | None => "Invalid Date"
    end;
  Date_parse := fun _ => nan;
|}.

Definition anvil : record :=
  [("_id", VObjectId "65f0c0ffee0000000000a001");
   ("Code", VStr "AN-1");
   ("Name", VStr "Anvil");
   ("Price", VNum 10.5);
   ("Balance", VNum 3);
   ("User", VObjectId "65f0c0ffee0000000000b001");
   ("Category", VArr [VObjectId "65f0c0ffee0000000000c001";
                      VObjectId "65f0c0ffee0000000000c002"]);
   ("Date", VNum 1700000000000)].

Definition anvil_document : SearchDocument := {|
  id := "65f0c0ffee0000000000a001";
  code := VStr "AN-1";
  name := VStr "Anvil";
  price := VNum 10.5;
  balance := VNum 3;
  measure := VNull;
  userId := VStr "65f0c0ffee0000000000b001";
  specOfferId := VNull;
  priceId := VNull;
  category := [VStr "65f0c0ffee0000000000c001"; VStr "65f0c0ffee0000000000c002"];
  region := [];
  date := VNum 1700000000000;
|}.

Definition bolt : record :=
  [("_id", VStr "bolt"); ("Name", VStr "Bolt"); ("Price", VNum 20)].

Definition record_without_id : record :=
  [("Name", VStr "foo"); ("Price", VNum 10)].

Definition record_with_null_category : record :=
  [("_id", VStr "x"); ("Category", VArr [VNull])].

Definition record_date_zero : record :=
  [("_id", VStr "x"); ("Date", VNum 0)].

Definition record_invalid_date : record :=
  [("_id", VStr "x"); ("Date", VDate None)].

Definition record_unparsable_date : record :=
  [("_id", VStr "x"); ("Date", VStr "soon")].

Definition unnamed : record := [("_id", VStr "x")].
Definition named_empty : record := [("Name", VStr ""); ("_id", VStr "x")].

Definition twelve : list record :=
  (fun i => [("_id", VStr i)]) <$>
  ["a"; "b"; "c"; "d"; "e"; "f"; "g"; "h"; "i"; "j"; "k"; "l"].

(** The process after [main], on a collection of two records and an
    index yet to be created. *)
Definition running : World :=
  @main example_runtime [anvil; bolt] (boot false ∅ []).

Definition delete_bolt : ChangeEvent := {|
  operationType := op_delete;
  documentKey := [("_id", VStr "bolt")];
  fullDocument := None;
|}.

Definition insert_anvil : ChangeEvent := {|
  operationType := op_insert;
  documentKey := [("_id", VObjectId "65f0c0ffee0000000000a001")];
  fullDocument := Some anvil;
|}.

(** The insert of a record whose name is an embedded document with a
    property [toString]. *)
Definition insert_oddly_named : ChangeEvent := {|
  operationType := op_insert;
  documentKey := [("_id", VStr "odd")];
  fullDocument :=
    Some [("_id", VStr "odd"); ("Name", VObj [("toString", VStr "x")])];
|}.


(** * Properties *)

Section TransformProperties.
Context {rt : Runtime}.

Lemma ToString_Ok (v : value) :
  overrides_toString v = false -> exists s, ToString v = Ok s.
Proof.
  induction v as [| | b | n | s | h | tv | items IH | fields] using value_array_ind;
    simpl; intros Ho; eauto.
  - induction IH as [| x rest Hx _ IHrest]; [eauto |].
    simpl in Ho. apply orb_false_elim in Ho as [Hox Horest].
    destruct IHrest as [r Hr]; [done |].
    assert (Hs : exists s, match x with
                           | VUndefined | VNull => Ok ""
                           | _ => ToString x
                           end = Ok s).
    { destruct x; eauto; apply Hx; done. }
    destruct Hs as [s Hs]. rewrite Hs. simpl.
    destruct rest; [eauto |]. rewrite Hr. simpl. eauto.
  - destruct (own_property "toString" fields) eqn:E; [| eauto].
    rewrite bool_decide_eq_false in Ho. exfalso. apply Ho. eauto.
Qed.

Lemma toString_Ok (v : value) :
  nullish v = false -> overrides_toString v = false -> exists s, toString v = Ok s.
Proof.
  intros Hn Ho. destruct v; try discriminate; try (by apply ToString_Ok).
  simpl in *. destruct (own_property "toString" fields) eqn:E; [| eauto].
  rewrite bool_decide_eq_false in Ho. exfalso. apply Ho. eauto.
Qed.

Lemma get_absent k d : own_property k d = None -> get k d = VUndefined.
Proof. unfold get. by intros ->. Qed.

Lemma bind_Ok {A B} (m : result A) (f : A -> result B) b :
  m ≫= f = Ok b -> exists a, m = Ok a /\ f a = Ok b.
Proof. destruct m; simpl; [eauto | discriminate]. Qed.

Lemma Ok_inj {A} (a b : A) : Ok a = Ok b -> a = b.
Proof. congruence. Qed.

Lemma fmap_Ok {A B} (f : A -> B) (m : result A) b :
  f <$> m = Ok b -> exists a, m = Ok a /\ b = f a.
Proof. destruct m; simpl; [| discriminate]. intros [= <-]. eauto. Qed.

(** What each field of a transformed document was computed from. *)
Lemma transform_fields d doc :
  Prices.transform d = Ok doc ->
  toString (get "_id" d) = Ok (id doc) /\
  code doc = or_else (get "Code" d) VNull /\
  name doc = or_else (get "Name" d) VNull /\
  price doc = or_else (get "Price" d) (VNum zero) /\
  balance doc = or_else (get "Balance" d) (VNum zero) /\
  measure doc = or_else (get "Measure" d) VNull /\
  Prices.ref_string (get "User" d) = Ok (userId doc) /\
  Prices.ref_string (get "SpecOffer" d) = Ok (specOfferId doc) /\
  Prices.ref_string (get "PriceId" d) = Ok (priceId doc) /\
  Prices.ref_strings (get "Category" d) = Ok (category doc) /\
  Prices.ref_strings (get "Region" d) = Ok (region doc) /\
  Prices.timestamp (get "Date" d) = Ok (date doc).
Proof.
  unfold Prices.transform. intros H.
  repeat (apply bind_Ok in H as (? & ? & H)).
  injection H as <-. simpl. repeat split; assumption.
Qed.

Lemma transform_of_fields d i u s p c r t :
  toString (get "_id" d) = Ok i ->
  Prices.ref_string (get "User" d) = Ok u ->
  Prices.ref_string (get "SpecOffer" d) = Ok s ->
  Prices.ref_string (get "PriceId" d) = Ok p ->
  Prices.ref_strings (get "Category" d) = Ok c ->
  Prices.ref_strings (get "Region" d) = Ok r ->
  Prices.timestamp (get "Date" d) = Ok t ->
  Prices.transform d =
    Ok (mkDoc i (or_else (get "Code" d) VNull) (or_else (get "Name" d) VNull)
          (or_else (get "Price" d) (VNum zero))
          (or_else (get "Balance" d) (VNum zero))
          (or_else (get "Measure" d) VNull) u s p c r t).
Proof.
  unfold Prices.transform. intros -> -> -> -> -> -> ->. reflexivity.
Qed.

Lemma truthy_not_nullish v : truthy v = true -> nullish v = false.
Proof. by destruct v. Qed.

Lemma ref_string_Ok v :
  overrides_toString v = false -> exists r, Prices.ref_string v = Ok r.
Proof.
  intros Ho. unfold Prices.ref_string. destruct (truthy v) eqn:Ht; [| eauto].
  destruct (toString_Ok v (truthy_not_nullish v Ht) Ho) as [s ->]. simpl. eauto.
Qed.

Lemma ref_strings_Ok v :
  overrides_toString v = false -> no_null_element v = true ->
  exists r, Prices.ref_strings v = Ok r.
Proof.
  unfold Prices.ref_strings. destruct v; eauto. simpl.
  induction items as [| c rest IH]; simpl; [eauto |].
  intros Ho Hn. apply orb_false_elim in Ho as [Hoc Horest].
  apply andb_prop in Hn as [Hnc Hnrest].
  destruct (IH Horest Hnrest) as [r Hr].
  assert (Hc : exists y, (if typeof_object c then VStr <$> toString c else Ok c) = Ok y).
  { destruct (typeof_object c) eqn:Hty; [| eauto].
    destruct (toString_Ok c) as [s ->]; [by destruct c | done | simpl; eauto]. }
  destruct Hc as [y Hy]. rewrite Hy. simpl. rewrite Hr. simpl. eauto.
Qed.

Lemma timestamp_Ok v :
  overrides_toString v = false -> exists r, Prices.timestamp v = Ok r.
Proof.
  intros Ho. unfold Prices.timestamp. destruct (truthy v) eqn:Ht; [| eauto].
  assert (H : exists tv, Date_new v = Ok tv).
  { destruct (ToString_Ok v Ho) as [s Hs].
    destruct v; try discriminate; try (by eexists);
      unfold Date_new, ToPrimitive; rewrite Hs; simpl; eauto. }
  destruct H as [tv ->]. simpl. eauto.
Qed.

(** C2, as amended.  On every record that is [convertible] ([_id] present
    and not null, no converted field overriding [toString], no [null]
    among the elements of [Category] and [Region]) the transform returns a
    document, in which an absent [Code], [Name], [Measure], [User],
    [SpecOffer], [PriceId] or [Date] is [null], an absent [Price] or
    [Balance] is [0], and an absent [Category] or [Region] is the empty
    array. *)
Theorem transform_total_on_convertible (d : record) :
  convertible d = true ->
  exists doc, Prices.transform d = Ok doc /\
    (own_property "Code" d = None -> code doc = VNull) /\
    (own_property "Name" d = None -> name doc = VNull) /\
    (own_property "Price" d = None -> price doc = VNum zero) /\
    (own_property "Balance" d = None -> balance doc = VNum zero) /\
    (own_property "Measure" d = None -> measure doc = VNull) /\
    (own_property "User" d = None -> userId doc = VNull) /\
    (own_property "SpecOffer" d = None -> specOfferId doc = VNull) /\
    (own_property "PriceId" d = None -> priceId doc = VNull) /\
    (own_property "Category" d = None -> category doc = []) /\
    (own_property "Region" d = None -> region doc = []) /\
    (own_property "Date" d = None -> date doc = VNull).
Proof.
  unfold convertible, converted_fields. simpl forallb. intros H.
  repeat match goal with
         | H : _ && _ = true |- _ => apply andb_prop in H as [? ?]
         | H : negb _ = true |- _ => apply negb_true_iff in H
         end.
  destruct (toString_Ok (get "_id" d)) as [i Hi]; [done.. |].
  destruct (ref_string_Ok (get "User" d)) as [u Hu]; [done |].
  destruct (ref_string_Ok (get "SpecOffer" d)) as [s Hs]; [done |].
  destruct (ref_string_Ok (get "PriceId" d)) as [p Hp]; [done |].
  destruct (ref_strings_Ok (get "Category" d)) as [c Hc]; [done.. |].
  destruct (ref_strings_Ok (get "Region" d)) as [r Hr]; [done.. |].
  destruct (timestamp_Ok (get "Date" d)) as [t Ht]; [done |].
  eexists. split; [by apply transform_of_fields |]. simpl.
  repeat split; intros Ha; apply get_absent in Ha; rewrite Ha in *;
    unfold Prices.ref_string, Prices.ref_strings, Prices.timestamp, or_else in *;
    simpl in *; congruence.
Qed.

Lemma TimeClip_range (n : float) (t : Z) :
  TimeClip n = Some t -> (Z.abs t <= maxTime)%Z.
Proof.
  unfold TimeClip. destruct (FloatOps.Prim2SF n) as [z | i | | s m e].
  - intros [= <-]. done.
  - discriminate.
  - discriminate.
  - destruct (0 <=? e)%Z eqn:He.
    + destruct (maxTime <? Z.pos m * 2 ^ e)%Z eqn:Hbig; [discriminate |].
      apply Z.ltb_ge in Hbig. apply Z.leb_le in He.
      assert (0 <= Z.pos m * 2 ^ e)%Z by (apply Z.mul_nonneg_nonneg; lia).
      intros [= <-]. destruct s; lia.
    + destruct (maxTime * 2 ^ (- e) <? Z.pos m)%Z eqn:Hbig; [discriminate |].
      apply Z.ltb_ge in Hbig. apply Z.leb_gt in He.
      assert (Hpow : (0 < 2 ^ (- e))%Z) by (apply Z.pow_pos_nonneg; lia).
      assert (Hlo : (0 <= Z.pos m / 2 ^ (- e))%Z) by (apply Z.div_pos; lia).
      assert (Hhi : (Z.pos m / 2 ^ (- e) <= maxTime)%Z).
      { apply Z.div_le_upper_bound; lia. }
      intros [= <-]. destruct s; lia.
Qed.

Lemma TimeClip_integral_range (tv : option Z) (t : Z) :
  TimeClip_integral tv = Some t -> (Z.abs t <= maxTime)%Z.
Proof.
  destruct tv as [t' |]; simpl; [| discriminate].
  destruct (Z.abs t' <=? maxTime)%Z eqn:E; [| discriminate].
  intros [= <-]. by apply Z.leb_le.
Qed.

Lemma Date_new_range (v : value) (t : Z) :
  Date_new v = Ok (Some t) -> (Z.abs t <= maxTime)%Z.
Proof.
  unfold Date_new. intros H.
  destruct v; simpl in H;
    first
      [ apply Ok_inj in H; by apply TimeClip_range in H
      | apply Ok_inj in H; by apply TimeClip_integral_range in H
      | apply bind_Ok in H as (p & Hp & H);
        apply fmap_Ok in Hp as (s & _ & ->);
        apply Ok_inj in H; by apply TimeClip_range in H ].
Qed.

Lemma digits2_pos_iter (p d : positive) :
  digits2_pos (Pos.iter xO p d) = (digits2_pos p + d)%positive.
Proof.
  induction d as [| d IH] using Pos.peano_ind.
  - simpl. lia.
  - rewrite Pos.iter_succ. simpl. rewrite IH. lia.
Qed.

Lemma iter_xO_value (p d : positive) :
  Z.pos (Pos.iter xO p d) = (Z.pos p * 2 ^ Z.pos d)%Z.
Proof.
  induction d as [| d IH] using Pos.peano_ind.
  - simpl. lia.
  - rewrite Pos.iter_succ, Pos2Z.inj_xO, IH, Pos2Z.inj_succ, Z.pow_succ_r by lia. lia.
Qed.

Lemma digits2_pos_lower (p : positive) :
  (2 ^ (Z.pos (digits2_pos p) - 1) <= Z.pos p)%Z.
Proof.
  induction p as [p IH | p IH |]; simpl digits2_pos.
  - rewrite Pos2Z.inj_succ.
    replace (Z.succ (Z.pos (digits2_pos p)) - 1)%Z
      with (Z.succ (Z.pos (digits2_pos p) - 1)) by lia.
    rewrite Z.pow_succ_r by lia. lia.
  - rewrite Pos2Z.inj_succ.
    replace (Z.succ (Z.pos (digits2_pos p)) - 1)%Z
      with (Z.succ (Z.pos (digits2_pos p) - 1)) by lia.
    rewrite Z.pow_succ_r by lia. lia.
  - simpl. lia.
Qed.

Lemma digits2_pos_le_53 (p : positive) :
  (Z.pos p < 2 ^ 53)%Z -> (Z.pos (digits2_pos p) <= 53)%Z.
Proof.
  intros Hp. pose proof (digits2_pos_lower p) as Hlow.
  destruct (Z_le_gt_dec (Z.pos (digits2_pos p)) 53) as [| Hgt]; [done |].
  assert (2 ^ 53 <= 2 ^ (Z.pos (digits2_pos p) - 1))%Z
    by (apply Z.pow_le_mono_r; lia).
  lia.
Qed.

(** A mantissa of 53 digits is left as it is. *)
Lemma binary_round_aux_exact (s : bool) (m : positive) (e : Z) :
  Z.pos (digits2_pos m) = 53%Z -> (-1074 <= e <= 971)%Z ->
  binary_round_aux FloatOps.prec FloatOps.emax s (Z.pos m) e loc_Exact =
    S754_finite s m e.
Proof.
  intros Hd He.
  unfold binary_round_aux, shr_fexp, fexp, emin, FloatOps.prec, FloatOps.emax.
  cbn [Zdigits2 shr_record_of_loc]. rewrite Hd.
  replace (Z.max (53 + e - 53) (3 - 1024 - 53) - e)%Z with 0%Z by lia.
  cbn [shr shr_m loc_of_shr_record round_nearest_even Zdigits2 shr_record_of_loc].
  rewrite Hd.
  replace (Z.max (53 + e - 53) (3 - 1024 - 53) - e)%Z with 0%Z by lia.
  cbn [shr shr_m].
  replace (e <=? 1024 - 53)%Z with true by (symmetry; apply Z.leb_le; lia).
  done.
Qed.

(** The double of a positive integer below [2 ^ 53]: the integer itself,
    its mantissa shifted to 53 digits. *)
Lemma binary_round_integer (p : positive) :
  (Z.pos p < 2 ^ 53)%Z ->
  exists m e,
    binary_round FloatOps.prec FloatOps.emax false p 0 = S754_finite false m e /\
    (e <= 0)%Z /\ Z.pos m = (Z.pos p * 2 ^ (- e))%Z.
Proof.
  intros Hp. pose proof (digits2_pos_le_53 p Hp) as Hd.
  unfold binary_round, shl_align, fexp, emin, FloatOps.prec, FloatOps.emax.
  replace (Z.max (Z.pos (digits2_pos p) + 0 - 53) (3 - 1024 - 53) - 0)%Z
    with (Z.pos (digits2_pos p) - 53)%Z by lia.
  replace (Z.max (Z.pos (digits2_pos p) + 0 - 53) (3 - 1024 - 53))%Z
    with (Z.pos (digits2_pos p) - 53)%Z by lia.
  destruct (Z.pos (digits2_pos p) - 53)%Z as [| k | k] eqn:Ek; [| lia |].
  - exists p, 0%Z. split; [| simpl; lia].
    apply binary_round_aux_exact; lia.
  - exists (Pos.iter xO p k), (Z.neg k). split_and!; [| lia |].
    + rewrite <- Ek. apply binary_round_aux_exact; [| lia].
      rewrite digits2_pos_iter. lia.
    + rewrite iter_xO_value. done.
Qed.

Lemma Prim2SF_number_of_Z (z : Z) :
  (Z.abs z <= maxTime)%Z ->
  z = 0%Z /\ FloatOps.Prim2SF (number_of_Z z) = S754_zero false \/
  exists m e,
    FloatOps.Prim2SF (number_of_Z z) = S754_finite (z <? 0)%Z m e /\
    (e <= 0)%Z /\ Z.pos m = (Z.abs z * 2 ^ (- e))%Z.
Proof.
  intros Hz. unfold maxTime in Hz.
  assert (Hmod : Uint63Axioms.to_Z (Uint63Axioms.of_Z (Z.abs z)) = Z.abs z).
  { rewrite Uint63.of_Z_spec. apply Z.mod_small.
    change Uint63Axioms.wB with (2 ^ 63)%Z. lia. }
  assert (Hsf : FloatOps.Prim2SF (of_uint63 (Uint63Axioms.of_Z (Z.abs z))) =
                binary_normalize FloatOps.prec FloatOps.emax (Z.abs z) 0 false).
  { by rewrite FloatAxioms.of_uint63_spec, Hmod. }
  unfold number_of_Z.
  destruct z as [| p | p].
  - left. split; [done |]. vm_compute. reflexivity.
  - change (Z.abs (Z.pos p)) with (Z.pos p) in *.
    change (Z.pos p <? 0)%Z with false.
    right. destruct (binary_round_integer p) as (m & e & Hr & He & Hm); [lia |].
    exists m, e. rewrite Hsf. cbn [binary_normalize]. by rewrite Hr.
  - change (Z.abs (Z.neg p)) with (Z.pos p) in *.
    change (Z.neg p <? 0)%Z with true.
    right. destruct (binary_round_integer p) as (m & e & Hr & He & Hm); [lia |].
    exists m, e. rewrite FloatAxioms.opp_spec, Hsf. cbn [binary_normalize].
    by rewrite Hr.
Qed.

(** [getTime()] of a valid date is its time value: a number that is not
    NaN and that TimeClip reads back as the time value. *)
Lemma number_of_Z_not_nan (z : Z) :
  (Z.abs z <= maxTime)%Z -> is_nan (number_of_Z z) = false.
Proof.
  intros Hz. unfold is_nan. rewrite FloatAxioms.eqb_spec.
  destruct (Prim2SF_number_of_Z z Hz) as [[_ ->] | (m & e & -> & _)]; [done |].
  unfold SFeqb, SFcompare. rewrite Z.compare_refl.
  change (Pos.compare_cont Eq m m) with (m ?= m)%positive.
  rewrite Pos.compare_refl. by destruct (z <? 0)%Z.
Qed.

Lemma TimeClip_number_of_Z (z : Z) :
  (Z.abs z <= maxTime)%Z -> TimeClip (number_of_Z z) = Some z.
Proof.
  intros Hz. unfold TimeClip.
  destruct (Prim2SF_number_of_Z z Hz) as [[-> ->] | (m & e & -> & He & Hm)]; [done |].
  assert (Hpow : (0 < 2 ^ (- e))%Z) by (apply Z.pow_pos_nonneg; lia).
  destruct (0 <=? e)%Z eqn:E0.
  - apply Z.leb_le in E0. assert (e = 0%Z) as -> by lia.
    simpl in Hm. rewrite Z.mul_1_r in Hm. rewrite Hm. simpl (2 ^ 0)%Z.
    rewrite Z.mul_1_r.
    replace (maxTime <? Z.abs z)%Z with false by (symmetry; apply Z.ltb_ge; lia).
    f_equal. destruct (z <? 0)%Z eqn:Es; [apply Z.ltb_lt in Es | apply Z.ltb_ge in Es]; lia.
  - rewrite Hm.
    replace (maxTime * 2 ^ (- e) <? Z.abs z * 2 ^ (- e))%Z with false
      by (symmetry; apply Z.ltb_ge; nia).
    rewrite Z.div_mul by lia.
    f_equal. destruct (z <? 0)%Z eqn:Es; [apply Z.ltb_lt in Es | apply Z.ltb_ge in Es]; lia.
Qed.

(** C7, as amended.  In the document of a record, [date] is [null] when
    [Date] is absent or falsy ([null], [0], [NaN], the empty string,
    [false]).  When [Date] is truthy, [date] is the number that
    [getTime()] returns for [new Date(Date)]: when the value denotes a
    date, its time value, an integral number of milliseconds of absolute
    value at most 8.64e15, which is no NaN and sorts; NaN when it denotes
    none.  A valid [Date] object gives its own time value, a number its
    integer part when in range, a string what [Date.parse] makes of
    it. *)
Theorem date_is_null_or_time_value (d : record) (doc : SearchDocument) :
  Prices.transform d = Ok doc ->
  (own_property "Date" d = None -> date doc = VNull) /\
  (truthy (get "Date" d) = false -> date doc = VNull) /\
  (truthy (get "Date" d) = true ->
   exists tv,
     Date_new (get "Date" d) = Ok tv /\
     date doc = VNum (getTime tv) /\
     match tv with
     | Some t =>
         (Z.abs t <= maxTime)%Z /\
         sortable_number (date doc) = true /\
         TimeClip (getTime tv) = Some t
     | None => date doc = VNum nan /\ sortable_number (date doc) = false
     end) /\
  (forall t,
      get "Date" d = VDate (Some t) -> (Z.abs t <= maxTime)%Z ->
      date doc = VNum (number_of_Z t) /\ sortable_number (date doc) = true) /\
  (forall n t,
      get "Date" d = VNum n -> truthy (VNum n) = true -> TimeClip n = Some t ->
      date doc = VNum (number_of_Z t) /\ sortable_number (date doc) = true) /\
  (forall s t,
      get "Date" d = VStr s -> s <> "" -> TimeClip (Date_parse s) = Some t ->
      date doc = VNum (number_of_Z t) /\ sortable_number (date doc) = true).
Proof.
  intros H. apply transform_fields in H.
  destruct H as (_ & _ & _ & _ & _ & _ & _ & _ & _ & _ & _ & H).
  unfold Prices.timestamp in H.
  assert (Hsort : forall t, (Z.abs t <= maxTime)%Z ->
                    sortable_number (VNum (number_of_Z t)) = true).
  { intros t Ht. simpl. by rewrite number_of_Z_not_nan. }
  split_and!.
  - intros Ha. rewrite (get_absent _ _ Ha) in H. simpl in H. congruence.
  - intros Hf. rewrite Hf in H. congruence.
  - intros Ht. rewrite Ht in H. apply fmap_Ok in H as (tv & Hnew & ->).
    exists tv. split_and!; try done. destruct tv as [t |]; [| done].
    pose proof (Date_new_range _ _ Hnew) as Hrange.
    split_and!; [done | by apply Hsort | by apply TimeClip_number_of_Z].
  - intros t Hd Hrange. rewrite Hd in H. simpl in H.
    apply Z.leb_le in Hrange. rewrite Hrange in H. apply Z.leb_le in Hrange.
    apply Ok_inj in H. rewrite <- H. split; [done | by apply Hsort].
  - intros n t Hd Htruthy Hclip. rewrite Hd, Htruthy in H. simpl in H.
    rewrite Hclip in H. apply Ok_inj in H. rewrite <- H.
    split; [done |]. apply Hsort. by apply (TimeClip_range n).
  - intros s t Hd Hs Hclip. rewrite Hd in H.
    assert (Htruthy : truthy (VStr s) = true) by by destruct s.
    rewrite Htruthy in H. simpl in H.
    rewrite Hclip in H. apply Ok_inj in H. rewrite <- H.
    split; [done |]. apply Hsort. by apply (TimeClip_range (Date_parse s)).
Qed.

Lemma or_else_normal a b dflt :
  normal a = normal b -> or_else a dflt = or_else b dflt.
Proof.
  unfold normal, or_else.
  destruct (truthy a) eqn:Ha, (truthy b) eqn:Hb; intros E; subst;
    first [done | by rewrite Hb in Ha | by rewrite Ha in Hb].
Qed.

Lemma ref_string_normal a b :
  normal a = normal b -> Prices.ref_string a = Prices.ref_string b.
Proof.
  unfold normal, Prices.ref_string.
  destruct (truthy a) eqn:Ha, (truthy b) eqn:Hb; intros E; subst;
    first [done | by rewrite Hb in Ha | by rewrite Ha in Hb].
Qed.

Lemma timestamp_normal a b :
  normal a = normal b -> Prices.timestamp a = Prices.timestamp b.
Proof.
  unfold normal, Prices.timestamp.
  destruct (truthy a) eqn:Ha, (truthy b) eqn:Hb; intros E; subst;
    first [done | by rewrite Hb in Ha | by rewrite Ha in Hb].
Qed.

Lemma ref_strings_falsy a : truthy a = false -> Prices.ref_strings a = Ok [].
Proof. by destruct a. Qed.

Lemma ref_strings_normal a b :
  normal a = normal b -> Prices.ref_strings a = Prices.ref_strings b.
Proof.
  unfold normal.
  destruct (truthy a) eqn:Ha, (truthy b) eqn:Hb; intros E; subst.
  - done.
  - by rewrite ref_strings_falsy.
  - by rewrite (ref_strings_falsy a).
  - by rewrite !ref_strings_falsy.
Qed.

Lemma transform_normal (d1 d2 : record) :
  get "_id" d1 = get "_id" d2 ->
  (forall k, k <> "_id" -> normal (get k d1) = normal (get k d2)) ->
  Prices.transform d1 = Prices.transform d2.
Proof.
  intros Hid H. unfold Prices.transform. rewrite Hid.
  rewrite (or_else_normal (get "Code" d1) (get "Code" d2)) by by apply H.
  rewrite (or_else_normal (get "Name" d1) (get "Name" d2)) by by apply H.
  rewrite (or_else_normal (get "Price" d1) (get "Price" d2)) by by apply H.
  rewrite (or_else_normal (get "Balance" d1) (get "Balance" d2)) by by apply H.
  rewrite (or_else_normal (get "Measure" d1) (get "Measure" d2)) by by apply H.
  rewrite (ref_string_normal (get "User" d1) (get "User" d2)) by by apply H.
  rewrite (ref_string_normal (get "SpecOffer" d1) (get "SpecOffer" d2)) by by apply H.
  rewrite (ref_string_normal (get "PriceId" d1) (get "PriceId" d2)) by by apply H.
  rewrite (ref_strings_normal (get "Category" d1) (get "Category" d2)) by by apply H.
  rewrite (ref_strings_normal (get "Region" d1) (get "Region" d2)) by by apply H.
  rewrite (timestamp_normal (get "Date" d1) (get "Date" d2)) by by apply H.
  reflexivity.
Qed.

(** C10.  Let two records differ only in a field [f] other than [_id],
    absent from the first and falsy in the second.  Then the transform
    has the same outcome on both, and in the document of the second the
    falsy value is replaced by the default of [f]: [null] for [Code],
    [Name], [Measure], [User], [SpecOffer], [PriceId] and [Date], [0] for
    [Price] and [Balance], the empty array for [Category] and [Region]. *)
Theorem falsy_field_as_absent (d1 d2 : record) (f : string) (v : value) :
  f <> "_id" ->
  own_property f d1 = None ->
  own_property f d2 = Some v ->
  truthy v = false ->
  (forall k, k <> f -> own_property k d1 = own_property k d2) ->
  Prices.transform d1 = Prices.transform d2 /\
  forall doc, Prices.transform d2 = Ok doc ->
    (f = "Code" -> code doc = VNull) /\
    (f = "Name" -> name doc = VNull) /\
    (f = "Price" -> price doc = VNum zero) /\
    (f = "Balance" -> balance doc = VNum zero) /\
    (f = "Measure" -> measure doc = VNull) /\
    (f = "User" -> userId doc = VNull) /\
    (f = "SpecOffer" -> specOfferId doc = VNull) /\
    (f = "PriceId" -> priceId doc = VNull) /\
    (f = "Category" -> category doc = []) /\
    (f = "Region" -> region doc = []) /\
    (f = "Date" -> date doc = VNull).
Proof.
  intros Hf H1 H2 Hv Hrest.
  assert (Hg2 : get f d2 = v) by (unfold get; by rewrite H2).
  split.
  - apply transform_normal.
    + unfold get. by rewrite Hrest.
    + intros k _. destruct (decide (k = f)) as [-> | Hk].
      * rewrite (get_absent _ _ H1), Hg2. unfold normal. by rewrite Hv.
      * unfold get. by rewrite Hrest.
  - intros doc Hdoc. apply transform_fields in Hdoc.
    destruct Hdoc as (_ & Hc & Hn & Hp & Hb & Hm & Hu & Hs & Hpi & Hca & Hr & Hd).
    repeat split; intros ->; rewrite Hg2 in *;
      unfold or_else, Prices.ref_string, Prices.timestamp in *;
      rewrite ?Hv in *; try congruence.
    + rewrite ref_strings_falsy in Hca by done. congruence.
    + rewrite ref_strings_falsy in Hr by done. congruence.
Qed.
Lemma ref_strings_null items :
  VNull ∈ items -> is_Ok (Prices.ref_strings (VArr items)) = false.
Proof.
  simpl. induction items as [| c rest IH]; intros Hin.
  - by apply elem_of_nil in Hin.
  - apply elem_of_cons in Hin as [<- | Hin]; [done |].
    simpl. destruct (if typeof_object c then _ else _); [| done].
    simpl. specialize (IH Hin).
    by destruct (map_result _ rest).
Qed.

(** A [null] among the elements of [Category] or [Region] makes the
    transform throw: [typeof null] is ['object'], and reading
    [null.toString] is a TypeError. *)
Theorem null_reference_throws (d : record) (items : list value) :
  get "Category" d = VArr items \/ get "Region" d = VArr items ->
  VNull ∈ items ->
  is_Ok (Prices.transform d) = false.
Proof.
  intros Hfield Hin. destruct (Prices.transform d) as [doc |] eqn:E; [| done].
  apply transform_fields in E.
  destruct E as (_ & _ & _ & _ & _ & _ & _ & _ & _ & Hc & Hr & _).
  pose proof (ref_strings_null items Hin) as Hnull.
  destruct Hfield as [Hf | Hf]; rewrite Hf in *; [by rewrite Hc in Hnull | by rewrite Hr in Hnull].
Qed.
End TransformProperties.

Lemma ceil_div_0 b : 0 < b -> ceil_div 0 b = 0.
Proof. intros Hb. unfold ceil_div. apply Nat.div_small. lia. Qed.

Lemma ceil_div_step n b : 0 < b -> 0 < n -> ceil_div n b = S (ceil_div (n - b) b).
Proof.
  intros Hb Hn. unfold ceil_div.
  destruct (le_lt_dec b n) as [Hle | Hlt].
  - replace (n + b - 1) with ((n - b + b - 1) + 1 * b) by lia.
    rewrite Nat.div_add by lia. lia.
  - replace (n - b) with 0 by lia.
    rewrite (Nat.div_small (0 + b - 1)) by lia.
    replace (n + b - 1) with ((n - 1) + 1 * b) by lia.
    rewrite Nat.div_add by lia. rewrite Nat.div_small by lia. done.
Qed.

Lemma ceil_div_le n b : 0 < b -> ceil_div n b <= n.
Proof.
  intros Hb. induction n as [n IH] using lt_wf_ind.
  destruct n; [by rewrite ceil_div_0 |].
  rewrite ceil_div_step by lia.
  assert (ceil_div (S n - b) b <= S n - b) by (apply IH; lia). lia.
Qed.

Lemma reads_app j1 j2 : reads (j1 ++ j2) = reads j1 ++ reads j2.
Proof. apply List.filter_app. Qed.


Lemma scan_step skip B n :
  0 < B -> 0 < n -> scan skip B n = Find skip B :: scan (skip + B) B (n - B).
Proof.
  intros HB Hn. unfold scan. rewrite (ceil_div_step n B) by done.
  simpl. rewrite Nat.add_0_r. f_equal.
  rewrite <- fmap_S_seq, <- list_fmap_compose.
  apply list_fmap_ext. intros _ k _. simpl. f_equal. lia.
Qed.

Section BulkLoad.
Context {rt : Runtime}.

Lemma addDocuments_run docs w :
  addDocuments docs w =
    if next_fails w
    then (Throw (ServiceError "write rejected"), rejected (AddDocuments docs) w)
    else (Ok (), written (AddDocuments docs) (upsert_all docs) w).
Proof.
  unfold next_fails. destruct w as [ie st [| [] fs] af ss ts c j]; reflexivity.
Qed.

Lemma updateDocuments_run docs w :
  updateDocuments docs w =
    if next_fails w
    then (Throw (ServiceError "write rejected"), rejected (UpdateDocuments docs) w)
    else (Ok (), written (UpdateDocuments docs) (upsert_all docs) w).
Proof.
  unfold next_fails. destruct w as [ie st [| [] fs] af ss ts c j]; reflexivity.
Qed.

Lemma deleteDocument_run docId w :
  deleteDocument docId w =
    if next_fails w
    then (Throw (ServiceError "write rejected"), rejected (DeleteDocument docId) w)
    else (Ok (), written (DeleteDocument docId) (delete docId) w).
Proof.
  unfold next_fails. destruct w as [ie st [| [] fs] af ss ts c j]; reflexivity.
Qed.

Lemma no_faults_next w : no_faults w -> next_fails w = false.
Proof.
  unfold no_faults, next_fails. destruct (write_faults w); [done |].
  by inversion 1.
Qed.

Lemma no_faults_written c f w : no_faults w -> no_faults (written c f w).
Proof.
  unfold no_faults. simpl. destruct (write_faults w); [done |].
  by inversion 1.
Qed.

Lemma map_result_transforms config docs :
  Forall (transforms config) docs ->
  exists ts, map_result (transform config) docs = Ok ts /\
             omap (fun d : option SearchDocument => d) ts = documents_of config docs.
Proof.
  induction 1 as [| d rest Hd _ (ts & Hts & Hom)]; [by exists [] |].
  unfold transforms in Hd. unfold documents_of. simpl.
  destruct (transform config d) as [o |] eqn:E; [| discriminate].
  rewrite Hts. simpl. exists (o :: ts). split; [done |].
  simpl. destruct o; [f_equal |]; exact Hom.
Qed.

Lemma documents_of_app config l1 l2 :
  documents_of config (l1 ++ l2) = documents_of config l1 ++ documents_of config l2.
Proof. unfold documents_of. apply omap_app. Qed.

Lemma upsert_all_app l1 l2 m :
  upsert_all (l1 ++ l2) m = upsert_all l2 (upsert_all l1 m).
Proof. unfold upsert_all. apply foldl_app. Qed.

Lemma page_at_pos db skip B : 0 < B -> page_at db skip B = take B (drop skip db).
Proof. unfold page_at. by destruct B; [lia |]. Qed.

Lemma bulk_loop_S fuel db config B skip total w :
  bulk_loop (S fuel) db config B skip total w =
    let w1 := log_call (Find skip B) w in
    let docs := page_at db skip B in
    if (length docs =? 0)%nat then (Ok (Some total), w1)
    else
      match map_result (transform config) docs with
      | Throw e => (Throw e, w1)
      | Ok transformed =>
          let documents := omap (fun d : option SearchDocument => d) transformed in
          if (0 <? length documents)%nat then
            match addDocuments documents w1 with
            | (Ok _, w2) =>
                bulk_loop fuel db config B (skip + B) (total + length documents)
                  (log_call (ConsoleLog (LogLoaded (total + length documents))) w2)
            | (Throw e, w2) => (Throw e, w2)
            end
          else bulk_loop fuel db config B (skip + B) total w1
      end.
Proof.
  simpl. unfold mbind, M_bind, find, mret, M_ret, lift. simpl.
  fold (page_at db skip B).
  destruct (length (page_at db skip B) =? 0)%nat; [done |].
  destruct (map_result (transform config) (page_at db skip B)); [| done].
  simpl.
  destruct (0 <? length (omap (fun d : option SearchDocument => d) a))%nat; [| done].
  unfold mbind, M_bind. 
  destruct (addDocuments _ _) as [[] ?]; done.
Qed.

(** The fuel [bulk_load] supplies is enough: the loop ends, by an empty
    page or an exception, before it is used up. *)
Lemma bulk_loop_enough_fuel config db B fuel :
  0 < B ->
  forall skip total w,
    length (drop skip db) < fuel ->
    fst (bulk_loop fuel db config B skip total w) <> Ok None.
Proof.
  intros HB.
  induction fuel as [| fuel IH]; intros skip total w Hfuel; [lia |].
  rewrite bulk_loop_S, page_at_pos by done. cbv zeta.
  destruct (length (take B (drop skip db)) =? 0)%nat eqn:Epage; [done |].
  apply Nat.eqb_neq in Epage. rewrite length_take in Epage.
  assert (Hnext : length (drop (skip + B) db) < fuel).
  { rewrite <- drop_drop, (length_drop (drop skip db) B). lia. }
  destruct (map_result _ _) as [ts |]; [| done].
  destruct (0 <? _)%nat.
  - destruct (addDocuments _ _) as [[[] | e] w2]; [by apply IH | done].
  - by apply IH.
Qed.

(** The bulk pass always ends: on every collection, for every
    configuration and every page size other than 0, [bulk_load] returns
    the total its loop computed or throws, within the fuel it supplies.
    (With a limit of 0 every read would return the whole collection, and
    the loop of the source would not end on a collection that is not
    empty; [syncCollection] reads in pages of 5000.) *)
Theorem bulk_load_ends db config B w :
  0 < B ->
  exists w',
    (exists total,
        bulk_loop (S (length db)) db config B 0 0 w = (Ok (Some total), w') /\
        bulk_load db config B w = (Ok total, w')) \/
    (exists e, bulk_load db config B w = (Throw e, w')).
Proof.
  intros HB.
  pose proof (bulk_loop_enough_fuel config db B (S (length db)) HB 0 0 w) as H.
  unfold bulk_load, mbind, M_bind.
  destruct (bulk_loop _ _ _ _ _ _ _) as [[[total |] | e] w']; simpl in H.
  - exists w'. left. by exists total.
  - exfalso. apply H; [rewrite drop_0; lia | done].
  - exists w'. right. by exists e.
Qed.

Lemma no_faults_log_call c w : no_faults w -> no_faults (log_call c w).
Proof. done. Qed.

(** With a limit of 0 every read returns the whole collection: on a
    collection that is not empty the loop goes on, whatever the fuel. *)
Lemma bulk_loop_no_limit config db fuel :
  db <> [] ->
  Forall (transforms config) db ->
  forall total w,
    no_faults w ->
    fst (bulk_loop fuel db config 0 0 total w) = Ok None.
Proof.
  intros Hdb Hok. induction fuel as [| fuel IH]; intros total w Hnf; [done |].
  rewrite bulk_loop_S. unfold page_at. cbn [Nat.eqb]. rewrite drop_0. cbv zeta.
  destruct db as [| d db']; [done |]. cbn [length Nat.eqb].
  destruct (map_result_transforms config (d :: db') Hok) as (ts & -> & _).
  destruct (0 <? _)%nat.
  - rewrite addDocuments_run, no_faults_next by done.
    apply IH. by apply no_faults_log_call, no_faults_written.
  - by apply IH.
Qed.

Lemma bulk_loop_spec (config : SyncConfig) (db : list record) (B : nat) :
  0 < B ->
  forall fuel skip total w,
    Forall (transforms config) (drop skip db) ->
    no_faults w ->
    ceil_div (length (drop skip db)) B < fuel ->
    exists w' j,
      bulk_loop fuel db config B skip total w =
        (Ok (Some (total + length (documents_of config (drop skip db)))), w') /\
      stored w' = upsert_all (documents_of config (drop skip db)) (stored w) /\
      journal w' = journal w ++ j /\
      reads j = scan skip B (length (drop skip db)) /\
      Forall bulk_call j /\
      same_process w w' /\
      no_faults w' /\
      (documents_of config (drop skip db) <> [] ->
       ConsoleLog (LogLoaded (total + length (documents_of config (drop skip db)))) ∈ j).
Proof.
  intros HB fuel. induction fuel as [| fuel IH]; intros skip total w Hok Hnf Hfuel; [lia |].
  rewrite bulk_loop_S, page_at_pos by done. cbv zeta.
  destruct (drop skip db) as [| d rest] eqn:Erest.
  - (* the page is empty: the loop ends *)
    rewrite take_nil. simpl.
    exists (log_call (Find skip B) w), [Find skip B].
    rewrite Nat.add_0_r. split_and!; try done.
    + unfold scan. rewrite ceil_div_0 by done. simpl. do 2 f_equal. lia.
    + by repeat constructor.
  - rewrite <- Erest in *.
    assert (Hlen : 0 < length (drop skip db)) by (rewrite Erest; simpl; lia).
    assert (Hpage : (length (take B (drop skip db)) =? 0)%nat = false).
    { apply Nat.eqb_neq. rewrite length_take. lia. }
    rewrite Hpage.
    destruct (map_result_transforms config (take B (drop skip db)))
      as (ts & -> & Hts); [by apply Forall_take |].
    rewrite Hts.
    assert (Hnext : drop (skip + B) db = drop B (drop skip db)) by by rewrite drop_drop.
    assert (Hsplit : documents_of config (drop skip db) =
                     documents_of config (take B (drop skip db)) ++
                     documents_of config (drop (skip + B) db)).
    { rewrite Hnext, <- documents_of_app. by rewrite take_drop. }
    assert (Hfuel' : ceil_div (length (drop (skip + B) db)) B < fuel).
    { rewrite Hnext, (length_drop (drop skip db) B).
      rewrite ceil_div_step in Hfuel by done. lia. }
    assert (Hok' : Forall (transforms config) (drop (skip + B) db)).
    { rewrite Hnext. by apply Forall_drop. }
    assert (Hreads : scan skip B (length (drop skip db)) =
                     Find skip B :: scan (skip + B) B (length (drop (skip + B) db))).
    { rewrite Hnext, (length_drop (drop skip db) B). by apply scan_step. }
    set (page := documents_of config (take B (drop skip db))) in *.
    destruct (0 <? length page)%nat eqn:Hsome.
    + (* the page has documents: they are written and the total logged *)
      rewrite addDocuments_run, no_faults_next by done.
      set (w3 := log_call _ (written _ _ _)).
      destruct (IH (skip + B) (total + length page) w3)
        as (w' & j & Hrun & Hst & Hj & Hr & Hc & Hs & Hnf' & Hlast);
        [done | by apply no_faults_log_call, no_faults_written | done |].
      exists w', ([Find skip B; AddDocuments page;
                   ConsoleLog (LogLoaded (total + length page))] ++ j).
      rewrite Hrun, Hsplit, length_app, upsert_all_app, Hst, Hj, Nat.add_assoc.
      split_and!; try done.
      * subst w3. simpl. by rewrite <- !app_assoc.
      * rewrite Hreads, <- Hr. done.
      * by repeat constructor.
      * intros _.
        destruct (documents_of config (drop (skip + B) db)) as [| doc later].
        -- simpl. rewrite Nat.add_0_r. do 2 apply list_elem_of_further.
           apply list_elem_of_here.
        -- apply elem_of_app. right. by apply Hlast.
    + (* every record of the page was skipped *)
      apply Nat.ltb_ge in Hsome.
      assert (Hnil : page = []) by (destruct page; [done | simpl in Hsome; lia]).
      destruct (IH (skip + B) total (log_call (Find skip B) w))
        as (w' & j & Hrun & Hst & Hj & Hr & Hc & Hs & Hnf' & Hlast); [done.. |].
      exists w', ([Find skip B] ++ j).
      rewrite Hrun, Hsplit, Hnil, Hst, Hj. simpl.
      split_and!; try done.
      * by rewrite <- app_assoc.
      * rewrite Hreads, <- Hr. done.
      * by constructor.
      * intros Hne. apply list_elem_of_further. by apply Hlast.
Qed.

Lemma bulk_load_spec (config : SyncConfig) (db : list record) (B : nat) (w : World) :
  0 < B ->
  Forall (transforms config) db ->
  no_faults w ->
  exists w' j,
    bulk_load db config B w = (Ok (length (documents_of config db)), w') /\
    stored w' = upsert_all (documents_of config db) (stored w) /\
    journal w' = journal w ++ j /\
    reads j = scan 0 B (length db) /\
    Forall bulk_call j /\
    same_process w w' /\
    no_faults w' /\
    (documents_of config db <> [] ->
     ConsoleLog (LogLoaded (length (documents_of config db))) ∈ j).
Proof.
  intros HB Hok Hnf.
  destruct (bulk_loop_spec config db B HB (S (length db)) 0 0 w)
    as (w' & j & Hrun & H); [done | done | |].
  { rewrite drop_0. pose proof (ceil_div_le (length db) B HB). lia. }
  rewrite drop_0 in *. exists w', j. split; [| done].
  unfold bulk_load, mbind, M_bind. by rewrite Hrun.
Qed.

(** A run of [syncCollection]: the set-up, which ends the run when one
    of its calls is rejected, then the bulk pass and the new listener. *)
Lemma syncCollection_cases db config w :
  syncCollection db config w =
    if setup_fails w
    then (Throw (ServiceError "request failed"), setup_world config w)
    else
      match bulk_load db config batchSize (setup_world config w) with
      | (Ok total, w') => (Ok (), attached config total w')
      | (Throw e, w') => (Throw e, w')
      end.
Proof.
  unfold syncCollection, setup_world, setup_trace, setup_fails, create_fails,
    update_fails, probe_throws, attached, getRawInfo,
    createIndex, updateSettings, next_admin, console_log, record_call, log_call,
    watch, require_index, set_index_exists, try_catch, mbind, M_bind, mret, M_ret.
  destruct w as [ie st fs af ss ts c j].
  destruct af as [| a0 [| a1 [| a2 af]]]; try destruct a0; try destruct a1;
    try destruct a2; destruct ie;
    cbn [index_exists stored write_faults admin_faults streams timers clock
         journal hd tail orb andb negb drop Nat.add];
    rewrite <- ?app_assoc; cbn [app]; try done;
    destruct (bulk_load _ _ _ _) as [[total | e] w']; try done;
    rewrite <- ?app_assoc; done.
Qed.

Lemma no_admin_faults_setup config w :
  no_admin_faults w ->
  setup_fails w = false /\ setup_world config w = after_setup config w /\
  no_admin_faults (after_setup config w).
Proof.
  unfold no_admin_faults, setup_fails, create_fails, update_fails, probe_throws,
    setup_world, after_setup, setup_trace, setup_calls.
  destruct w as [ie st fs af ss ts c j]. simpl. intros Haf.
  destruct af as [| a0 [| a1 [| a2 af]]];
    repeat match goal with
           | H : Forall _ (_ :: _) |- _ => apply Forall_cons in H as [-> H]
           end;
    destruct ie; simpl; split_and!; try done; repeat constructor; assumption.
Qed.

Lemma syncCollection_run db config w :
  no_admin_faults w ->
  syncCollection db config w =
    match bulk_load db config batchSize (after_setup config w) with
    | (Ok total, w') => (Ok (), attached config total w')
    | (Throw e, w') => (Throw e, w')
    end.
Proof.
  intros Haf. rewrite syncCollection_cases.
  destruct (no_admin_faults_setup config w Haf) as (-> & -> & _). done.
Qed.
End BulkLoad.

Section Handlers.
Context {rt : Runtime}.

Lemma same_listeners_refl w : same_listeners w w.
Proof. done. Qed.

Lemma same_listeners_trans w1 w2 w3 :
  same_listeners w1 w2 -> same_listeners w2 w3 -> same_listeners w1 w3.
Proof. intros (? & ? & ?) (? & ? & ?). repeat split; congruence. Qed.

Lemma addDocuments_listeners docs w : same_listeners w (snd (addDocuments docs w)).
Proof. rewrite addDocuments_run. by destruct (next_fails w). Qed.

Lemma bulk_loop_listeners config db B fuel :
  forall skip total w,
    same_listeners w (snd (bulk_loop fuel db config B skip total w)).
Proof.
  induction fuel as [| fuel IH]; intros skip total w; [done |].
  rewrite bulk_loop_S. cbv zeta.
  destruct (length _ =? 0)%nat; [done |].
  destruct (map_result _ _) as [ts |]; [| done].
  destruct (0 <? _)%nat.
  - pose proof (addDocuments_listeners
                  (omap (fun d : option SearchDocument => d) ts)
                  (log_call (Find skip B) w)) as Hadd.
    destruct (addDocuments _ _) as [[[] | e] w2]; simpl in Hadd.
    + eapply same_listeners_trans; [| apply IH].
      destruct Hadd as (? & ? & ?). done.
    + done.
  - eapply same_listeners_trans; [| apply IH]. done.
Qed.

Lemma syncCollection_listeners db config w :
  match syncCollection db config w with
  | (Ok _, w') =>
      streams w' = streams w ++ [true] /\ timers w' = timers w /\ clock w' = clock w
  | (Throw _, w') => same_listeners w w'
  end.
Proof.
  rewrite syncCollection_cases. destruct (setup_fails w); [done |].
  unfold bulk_load, mbind, M_bind.
  pose proof (bulk_loop_listeners config db batchSize (S (length db)) 0 0
                (setup_world config w)) as H.
  destruct (bulk_loop _ _ _ _ _ _ _) as [[r | e] w']; simpl in *;
    destruct H as (Hs & Ht & Hc).
  - by rewrite Hs, Ht, Hc.
  - done.
Qed.

Lemma start_listeners db config w :
  (streams (start db config w) = streams w \/
   streams (start db config w) = streams w ++ [true]) /\
  timers (start db config w) = timers w /\
  clock (start db config w) = clock w.
Proof.
  unfold start. pose proof (syncCollection_listeners db config w) as H.
  destruct (syncCollection db config w) as [[[] | e] w']; simpl.
  - destruct H as (? & ? & ?). eauto.
  - destruct H as (? & ? & ?). eauto.
Qed.

(** The handler of a change event, case by case. *)
Lemma on_change_run config change w :
  on_change config change w =
    match toString (get "_id" (documentKey change)) with
    | Throw e => (Ok (), log_call (ConsoleError (ErrChangeHandler e)) w)
    | Ok docId =>
        let upsert_by (c : call) (line : call) (doc : SearchDocument) :=
          if next_fails w
          then (Ok (), log_call (ConsoleError (ErrChangeHandler (ServiceError "write rejected")))
                         (rejected c w))
          else (Ok (), log_call line (written c (upsert_all [doc]) w)) in
        let upsert_with (c : list SearchDocument -> call)
                        (line : string -> string -> log_line) :=
          match fullDocument change with
          | None => (Ok (), w)
          | Some fullDoc =>
              match transform config fullDoc with
              | Throw e => (Ok (), log_call (ConsoleError (ErrChangeHandler e)) w)
              | Ok None => (Ok (), w)
              | Ok (Some doc) =>
                  upsert_by (c [doc]) (upsert_line (fun label => line label docId) doc) doc
              end
          end in
        match operationType change with
        | op_insert | op_replace => upsert_with AddDocuments LogAdded
        | op_update => upsert_with UpdateDocuments LogUpdated
        | op_delete =>
            if next_fails w
            then (Ok (), log_call (ConsoleError (ErrChangeHandler (ServiceError "write rejected")))
                           (rejected (DeleteDocument docId) w))
            else (Ok (), log_call (ConsoleLog (LogDeleted docId))
                           (written (DeleteDocument docId) (delete docId) w))
        end
    end.
Proof.
  unfold on_change, try_catch, mbind, M_bind, lift.
  destruct (toString _) as [docId | e]; [| done]. cbv zeta.
  destruct (operationType change); simpl.
  - destruct (fullDocument change) as [fd |]; [| done].
    destruct (transform config fd) as [[doc |] | e]; try done.
    unfold mbind, M_bind, upsert_line. rewrite addDocuments_run.
    destruct (next_fails w); [done |]. by destruct (ToString _).
  - destruct (fullDocument change) as [fd |]; [| done].
    destruct (transform config fd) as [[doc |] | e]; try done.
    unfold mbind, M_bind, upsert_line. rewrite updateDocuments_run.
    destruct (next_fails w); [done |]. by destruct (ToString _).
  - destruct (fullDocument change) as [fd |]; [| done].
    destruct (transform config fd) as [[doc |] | e]; try done.
    unfold mbind, M_bind, upsert_line. rewrite addDocuments_run.
    destruct (next_fails w); [done |]. by destruct (ToString _).
  - unfold mbind, M_bind. rewrite deleteDocument_run.
    by destruct (next_fails w).
Qed.

(** The handler of a change event never throws, and touches neither the
    streams nor the timers nor the clock. *)
Lemma on_change_contained config change w :
  exists w', on_change config change w = (Ok (), w') /\ same_listeners w w'.
Proof.
  rewrite on_change_run.
  destruct (toString _); [| by eexists]. cbv zeta.
  destruct (operationType change), (fullDocument change) as [fd |];
    try destruct (transform config fd) as [[doc |] | e];
    destruct (next_fails w); by eexists.
Qed.
End Handlers.

Section Listeners.
Context {rt : Runtime}.

Lemma opened_app ss1 ss2 : opened (ss1 ++ ss2) = opened ss1 + opened ss2.
Proof. unfold opened. by rewrite filter_app, length_app. Qed.

Lemma opened_close ss i :
  ss !! i = Some true -> S (opened (<[i := false]> ss)) = opened ss.
Proof.
  revert i. induction ss as [| s ss IH]; intros i H.
  - by destruct i.
  - destruct i as [| i]; simpl in H.
    + by injection H as ->.
    + specialize (IH i H). unfold opened in *. destruct s; simpl.
      * by rewrite IH.
      * by rewrite !filter_cons_False by done.
Qed.

Lemma stream_open_lookup sid w :
  stream_open sid w = true -> streams w !! sid = Some true.
Proof.
  unfold stream_open. destruct (streams w !! sid) as [[] |]; simpl; done.
Qed.

Lemma opened_none (ss : list bool) : opened ((fun _ => false) <$> ss) = 0.
Proof.
  unfold opened. induction ss as [| s ss IH]; [done |].
  simpl. by rewrite filter_cons_False by done.
Qed.

(** A restart opens one more stream, or ends the process. *)
Lemma restart_listeners db config w :
  ((streams (restart db config w) = streams w ++ [true] /\
    timers (restart db config w) = timers w) \/
   (streams (restart db config w) = (fun _ => false) <$> streams w /\
    timers (restart db config w) = [])) /\
  clock (restart db config w) = clock w.
Proof.
  unfold restart. pose proof (syncCollection_listeners db config w) as H.
  destruct (syncCollection db config w) as [[[] | e] w']; simpl.
  - destruct H as (? & ? & ?). eauto.
  - destruct H as (-> & ? & ?). eauto.
Qed.

Lemma react_one_pipeline config w ev :
  one_pipeline w -> one_pipeline (react config true w ev).
Proof.
  unfold one_pipeline, active_listeners. intros Hinv.
  destruct ev as [sid change | sid message | ms | db]; simpl.
  - destruct (stream_open sid w); [| done]. unfold run.
    destruct (on_change_contained config change w) as (w' & -> & Hs & Ht & _).
    simpl. by rewrite Hs, Ht.
  - destruct (stream_open sid w) eqn:Hopen; [| done].
    apply stream_open_lookup in Hopen. simpl.
    pose proof (opened_close _ _ Hopen) as Hclose. unfold opened in Hclose.
    rewrite length_app. simpl. lia.
  - done.
  - destruct (timers w) as [| due later] eqn:Et; [by rewrite Et |].
    destruct (due <=? clock w)%N; [| by rewrite Et].
    destruct (restart_listeners db config (set_timers later w))
      as ([[Hs Ht] | [Hs Ht]] & _); rewrite Hs, Ht; simpl in *.
    + pose proof (opened_app (streams w) [true]) as Happ. unfold opened in Happ.
      rewrite Happ. change (length (filter _ [true])) with 1. lia.
    + pose proof (opened_none (streams w)) as Hnone. unfold opened in Hnone.
      rewrite Hnone. lia.
Qed.

Lemma execute_one_pipeline config events :
  forall w, one_pipeline w -> one_pipeline (execute config true events w).
Proof.
  unfold execute. induction events as [| ev events IH]; intros w Hinv; [done |].
  simpl. apply IH. by apply react_one_pipeline.
Qed.

Lemma main_one_pipeline db w :
  streams w = [] -> timers w = [] -> one_pipeline (main db w).
Proof.
  intros Hs0 Ht0.
  unfold main, COLLECTIONS_TO_SYNC, one_pipeline, active_listeners. simpl.
  destruct (start_listeners db prices w) as ([Hs | Hs] & Ht & _);
    rewrite Hs, Ht, Hs0, Ht0; simpl; lia.
Qed.

(** C3.  A process that enters [main] with no change stream and no timer
    has, at every point of every execution, at most one of the two for
    the collection: one active listener, or one pending restart.  A
    restart is pending only once the stream that failed is closed, so the
    listener the restart attaches never runs beside the prior one.  The
    stream is closed by the change feed that reported the error
    ([feed_closes_on_error] is [true]); a restart that fails ends the
    process. *)
Theorem one_listener_if_feed_closes (db : list record) (events : list event)
    (w : World) :
  streams w = [] ->
  timers w = [] ->
  active_listeners (execute prices true events (main db w))
  + length (timers (execute prices true events (main db w))) <= 1.
Proof.
  intros Hs Ht.
  exact (execute_one_pipeline prices events _ (main_one_pipeline db w Hs Ht)).
Qed.
End Listeners.

Section Pipeline.
Context {rt : Runtime}.




Lemma prices_transform d :
  transform prices d = Some <$> Prices.transform d.
Proof. done. Qed.





Lemma syncCollection_spec db config w :
  Forall (transforms config) db ->
  no_faults w ->
  no_admin_faults w ->
  exists w' j,
    syncCollection db config w = (Ok (), w') /\
    journal w' =
      journal w ++ setup_calls config w ++ j ++
      [ConsoleLog (LogInitialSyncDone (length (documents_of config db)) (index config));
       ConsoleLog (LogWatching (collection config));
       Watch (length (streams w))] /\
    reads j = scan 0 batchSize (length db) /\
    Forall bulk_call j /\
    stored w' = upsert_all (documents_of config db) (stored w) /\
    streams w' = streams w ++ [true] /\
    timers w' = timers w /\
    clock w' = clock w.
Proof.
  intros Hok Hnf Haf. rewrite syncCollection_run by done.
  destruct (bulk_load_spec config db batchSize (after_setup config w))
    as (w' & j & -> & Hst & Hj & Hr & Hc & (_ & Hs & Ht & Hcl) & _);
    [unfold batchSize; lia | done | done |].
  exists (attached config (length (documents_of config db)) w'), j.
  unfold attached. simpl. rewrite Hst, Hj, Hs, Ht, Hcl. simpl.
  repeat split; try done.
  unfold setup_calls. destruct (index_exists w); simpl; rewrite <- ?app_assoc; simpl; reflexivity.
Qed.

(** C6.  The handler of a change event whose document key converts to
    [docId], when the index accepts the write.  An insert, update or
    replace with [fullDocument] present and transformed into a document
    upserts that document ([addDocuments], or [updateDocuments] for an
    update) under its [id], and ends with the log line of the upsert, or
    with the error line when the label of the log line does not convert
    to a string; transformed into a falsy value, or with [fullDocument]
    absent, it changes nothing.  A delete issues [deleteDocument docId],
    whatever the configured transform. *)
Theorem change_dispatch (config : SyncConfig) (change : ChangeEvent)
    (w : World) (docId : string) :
  toString (get "_id" (documentKey change)) = Ok docId ->
  next_fails w = false ->
  (forall fullDoc doc,
      operationType change <> op_delete ->
      fullDocument change = Some fullDoc ->
      transform config fullDoc = Ok (Some doc) ->
      exists w',
        on_change config change w = (Ok (), w') /\
        journal w' =
          journal w ++ [upsert_call (operationType change) doc;
                        upsert_line (upsert_log (operationType change) docId) doc] /\
        stored w' = <[id doc := doc]> (stored w)) /\
  (forall fullDoc,
      operationType change <> op_delete ->
      fullDocument change = Some fullDoc ->
      transform config fullDoc = Ok None ->
      on_change config change w = (Ok (), w)) /\
  (operationType change <> op_delete ->
   fullDocument change = None ->
   on_change config change w = (Ok (), w)) /\
  (operationType change = op_delete ->
   (exists w',
       on_change config change w = (Ok (), w') /\
       journal w' = journal w ++ [DeleteDocument docId; ConsoleLog (LogDeleted docId)] /\
       stored w' = delete docId (stored w)) /\
   forall config', on_change config' change w = on_change config change w).
Proof.
  intros Hid Hw. repeat split.
  - intros fullDoc doc Hop Hfull Hdoc.
    rewrite on_change_run, Hid, Hfull, Hdoc, Hw. cbv zeta.
    destruct (operationType change); try done;
      (eexists; split; [reflexivity |]; simpl; split; [| reflexivity];
       by rewrite <- app_assoc).
  - intros fullDoc Hop Hfull Hdoc.
    rewrite on_change_run, Hid, Hfull, Hdoc. cbv zeta.
    by destruct (operationType change).
  - intros Hop Hfull. rewrite on_change_run, Hid, Hfull. cbv zeta.
    by destruct (operationType change).
  - rewrite on_change_run, Hid, H, Hw. eexists. split; [reflexivity |].
    simpl. split; [| reflexivity]. by rewrite <- app_assoc.
  - intros config'. by rewrite !on_change_run, Hid, H.
Qed.

(** C5.  When the write [c] that the handler of a change event issues
    (the delete by id, or the upsert of the transformed document) is
    rejected, the handler returns normally: the call was made once, the
    error is logged, the index, the streams and the timers are as they
    were, and the listener goes on with the events that follow. *)
Theorem write_failure_contained (config : SyncConfig) (change : ChangeEvent)
    (w : World) (docId : string) (c : call) :
  toString (get "_id" (documentKey change)) = Ok docId ->
  next_fails w = true ->
  (operationType change = op_delete /\ c = DeleteDocument docId) \/
  (exists fullDoc doc,
      operationType change <> op_delete /\
      fullDocument change = Some fullDoc /\
      transform config fullDoc = Ok (Some doc) /\
      c = upsert_call (operationType change) doc) ->
  exists w',
    on_change config change w = (Ok (), w') /\
    journal w' =
      journal w ++ [c; ConsoleError (ErrChangeHandler (ServiceError "write rejected"))] /\
    stored w' = stored w /\
    streams w' = streams w /\
    timers w' = timers w /\
    forall feed_closes stream events,
      stream_open stream w = true ->
      stream_open stream w' = true /\
      execute config feed_closes (ev_change stream change :: events) w =
        execute config feed_closes events w'.
Proof.
  intros Hid Hw Hc.
  assert (Hrun : on_change config change w =
                 (Ok (), log_call (ConsoleError (ErrChangeHandler (ServiceError "write rejected")))
                           (rejected c w))).
  { rewrite on_change_run, Hid, Hw. cbv zeta.
    destruct Hc as [[Hop ->] | (fullDoc & doc & Hop & Hfull & Hdoc & ->)].
    - by rewrite Hop.
    - rewrite Hfull, Hdoc. by destruct (operationType change). }
  eexists. split; [exact Hrun |]. simpl. rewrite <- app_assoc.
  repeat split; try done.
  unfold execute. simpl. rewrite H. unfold run. by rewrite Hrun.
Qed.



End Pipeline.

Section BulkInvariants.
Context {rt : Runtime}.

Lemma map_result_length {A B} (f : A -> result B) l ys :
  map_result f l = Ok ys -> length ys = length l.
Proof.
  revert ys. induction l as [| x rest IH]; intros ys; simpl.
  - by intros [= <-].
  - destruct (f x) as [y |]; [| done]. simpl.
    destruct (map_result f rest) as [ys' |]; [| done]. simpl.
    intros [= <-]. simpl. by rewrite (IH ys').
Qed.

Lemma map_result_Ok_Forall {A B} (f : A -> result B) l ys :
  map_result f l = Ok ys -> Forall (fun x => is_Ok (f x) = true) l.
Proof.
  revert ys. induction l as [| x rest IH]; intros ys; simpl; [by constructor |].
  destruct (f x) as [y |] eqn:E; [| done]. simpl.
  destruct (map_result f rest) as [ys' |]; [| done]. simpl. intros _.
  constructor; [by rewrite E | by eapply IH].
Qed.


Lemma omap_id_length {A} (l : list (option A)) :
  length (omap (fun d : option A => d) l) <= length l.
Proof.
  induction l as [| [x |] l IH]; [done | |]; cbn in *; lia.
Qed.

Lemma upsert_all_dom docs (m : gmap string SearchDocument) :
  dom m ⊆ dom (upsert_all docs m).
Proof.
  revert m. induction docs as [| d docs IH]; intros m; [done |].
  simpl. etrans; [| apply IH]. apply dom_insert_subseteq.
Qed.

(** What holds of the bulk loop however it ends. *)
Lemma bulk_loop_invariants config db B fuel :
  0 < B ->
  forall skip total w,
    exists j,
      journal (snd (bulk_loop fuel db config B skip total w)) = journal w ++ j /\
      Forall (bounded_call B) j /\
      index_exists (snd (bulk_loop fuel db config B skip total w)) = index_exists w /\
      admin_faults (snd (bulk_loop fuel db config B skip total w)) = admin_faults w /\
      dom (stored w) ⊆ dom (stored (snd (bulk_loop fuel db config B skip total w))).
Proof.
  intros HB. induction fuel as [| fuel IH]; intros skip total w.
  { exists []. simpl. by rewrite app_nil_r. }
  rewrite bulk_loop_S, page_at_pos by done. cbv zeta.
  destruct (length _ =? 0)%nat.
  { exists [Find skip B]. simpl. split_and!; try done. by repeat constructor. }
  destruct (map_result _ _) as [ts |] eqn:Ets.
  2:{ exists [Find skip B]. simpl. split_and!; try done. by repeat constructor. }
  assert (Hsize : length (omap (fun d : option SearchDocument => d) ts) <= B).
  { etrans; [apply omap_id_length |].
    rewrite (map_result_length _ _ _ Ets), length_take. lia. }
  destruct (0 <? _)%nat eqn:Hsome.
  - apply Nat.ltb_lt in Hsome. rewrite addDocuments_run.
    destruct (next_fails _).
    + eexists [Find skip B; AddDocuments _]. simpl.
      rewrite <- app_assoc. split_and!; try done. by repeat constructor.
    + match goal with
      | |- context [bulk_loop fuel db config B ?s ?t ?w0] =>
          destruct (IH s t w0) as (j & Hj & Hc & Hi & Ha & Hd)
      end.
      eexists ([Find skip B; AddDocuments _; ConsoleLog (LogLoaded _)] ++ j).
      rewrite Hj, Hi, Ha. simpl. rewrite <- !app_assoc. split_and!; try done.
      * by repeat constructor.
      * etrans; [| exact Hd]. simpl. apply upsert_all_dom.
  - destruct (IH (skip + B) total (log_call (Find skip B) w))
      as (j & Hj & Hc & Hi & Ha & Hd).
    exists ([Find skip B] ++ j). rewrite Hj, Hi, Ha. simpl. rewrite <- app_assoc.
    split_and!; try done. by constructor.
Qed.
End BulkInvariants.

Section SyncInvariants.
Context {rt : Runtime}.

Lemma bulk_load_snd db config B w :
  snd (bulk_load db config B w) = snd (bulk_loop (S (length db)) db config B 0 0 w).
Proof.
  unfold bulk_load, mbind, M_bind.
  by destruct (bulk_loop _ _ _ _ _ _ _) as [[r | e] w'].
Qed.

Lemma bounded_call_not_admin B c : bounded_call B c -> is_admin c = false.
Proof. by destruct c. Qed.

Lemma setup_trace_calls config w :
  List.filter is_admin (setup_trace config w) =
    GetRawInfo (index config)
    :: (if probe_throws w then [CreateIndex (index config) "id"] else [])
    ++ (if create_fails w then [] else [UpdateSettings (settings config)]) /\
  List.filter is_write (setup_trace config w) = [] /\
  reads (setup_trace config w) = [].
Proof.
  unfold setup_trace, reads.
  by destruct (probe_throws w), (create_fails w), (update_fails w).
Qed.

(** What holds of a run of [syncCollection] however it ends. *)
Lemma syncCollection_invariants db config w :
  exists j,
    journal (snd (syncCollection db config w)) =
      journal w ++ setup_trace config w ++ j /\
    Forall (fun c => is_admin c = false) j /\
    (forall docs, AddDocuments docs ∈ j -> 0 < length docs <= batchSize) /\
    (setup_fails w = true ->
     j = [] /\
     syncCollection db config w =
       (Throw (ServiceError "request failed"), setup_world config w)) /\
    (setup_fails w = false -> index_exists (snd (syncCollection db config w)) = true) /\
    admin_faults (snd (syncCollection db config w)) =
      admin_faults (setup_world config w) /\
    dom (stored w) ⊆ dom (stored (snd (syncCollection db config w))).
Proof.
  rewrite syncCollection_cases.
  destruct (setup_fails w) eqn:Efail.
  { exists []. cbn [snd]. unfold setup_world. cbn [journal stored].
    rewrite app_nil_r. split_and!; try done.
    intros docs Hin. by apply elem_of_nil in Hin. }
  assert (Hexists : index_exists (setup_world config w) = true).
  { unfold setup_world, setup_fails, create_fails, probe_throws in *.
    cbn [index_exists].
    destruct (index_exists w); [done |]. simpl in *.
    rewrite orb_true_r in *. simpl in *.
    apply orb_false_elim in Efail as [-> _]. done. }
  destruct (bulk_loop_invariants config db batchSize (S (length db))
              ltac:(unfold batchSize; lia) 0 0
              (setup_world config w)) as (j & Hj & Hc & Hi & Ha & Hd).
  rewrite <- bulk_load_snd in Hj, Hi, Ha, Hd.
  assert (Hadmin : Forall (fun c => is_admin c = false) j).
  { eapply Forall_impl; [exact Hc |]. apply bounded_call_not_admin. }
  assert (Hsize : forall docs, AddDocuments docs ∈ j -> 0 < length docs <= batchSize).
  { intros docs Hin. rewrite Forall_forall in Hc. exact (Hc _ Hin). }
  rewrite Hexists in Hi.
  destruct (bulk_load _ _ _ _) as [[total | e] w'];
    cbn [snd] in *; unfold setup_world in Hj, Hd; cbn [journal stored] in Hj, Hd.
  - exists (j ++ [ConsoleLog (LogInitialSyncDone total (index config));
                  ConsoleLog (LogWatching (collection config));
                  Watch (length (streams w'))]).
    unfold attached. cbn [journal index_exists stored].
    rewrite Hj, <- !app_assoc. split_and!; try done.
    + apply Forall_app. split; [done | by repeat constructor].
    + intros docs Hin. apply elem_of_app in Hin as [Hin | Hin]; [by apply Hsize |].
      repeat (apply elem_of_cons in Hin as [Hin | Hin]; [done |]).
      by apply elem_of_nil in Hin.
  - exists j. rewrite Hj, <- !app_assoc. done.
Qed.

(** Whatever the collection, the configuration and the state of the
    index, and however the run ends, every [addDocuments] call that
    [syncCollection] makes carries at least one document and at most
    5000: an empty batch is never sent, and no batch holds more than one
    page. *)
Theorem bulk_batches_bounded (db : list record) (config : SyncConfig) (w : World) :
  exists j,
    journal (snd (syncCollection db config w)) = journal w ++ j /\
    forall docs, AddDocuments docs ∈ j -> 0 < length docs <= 5000.
Proof.
  destruct (syncCollection_invariants db config w) as (j & Hj & _ & Hsize & _).
  exists (setup_trace config w ++ j). split; [done |].
  intros docs Hin. apply elem_of_app in Hin as [Hin | Hin]; [| by apply Hsize].
  exfalso.
  assert (Hw : AddDocuments docs ∈ List.filter is_write (setup_trace config w)).
  { apply list_elem_of_In, List.filter_In. by rewrite <- list_elem_of_In. }
  destruct (setup_trace_calls config w) as (_ & Hnone & _).
  rewrite Hnone in Hw. by apply elem_of_nil in Hw.
Qed.

(** Every run of [syncCollection] opens with [getRawInfo].
    [createIndex], with the primary key ["id"], is called when, and only
    when, [getRawInfo] threw: its request failed, or the index is
    missing.  [updateSettings], with the configured settings, follows
    unless [createIndex] was rejected.  Nothing is read or written during
    the set-up.  When [createIndex] or [updateSettings] is rejected the
    run ends there with that error: no page is read, no document written,
    no change stream opened.  Otherwise the index exists from then on.
    No administration call is made after the set-up, however the run
    ends. *)
Theorem setup_precedes_scan (db : list record) (config : SyncConfig) (w : World) :
  exists j,
    journal (snd (syncCollection db config w)) =
      journal w ++ setup_trace config w ++ j /\
    List.filter is_admin (setup_trace config w) =
      GetRawInfo (index config)
      :: (if probe_throws w then [CreateIndex (index config) "id"] else [])
      ++ (if create_fails w then [] else [UpdateSettings (settings config)]) /\
    List.filter is_write (setup_trace config w) = [] /\
    reads (setup_trace config w) = [] /\
    Forall (fun c => is_admin c = false) j /\
    (setup_fails w = true ->
     j = [] /\
     fst (syncCollection db config w) = Throw (ServiceError "request failed") /\
     stored (snd (syncCollection db config w)) = stored w /\
     streams (snd (syncCollection db config w)) = streams w /\
     timers (snd (syncCollection db config w)) = timers w) /\
    (setup_fails w = false ->
     index_exists (snd (syncCollection db config w)) = true).
Proof.
  destruct (syncCollection_invariants db config w)
    as (j & Hj & Hadmin & _ & Hfail & Hi & _ & _).
  destruct (setup_trace_calls config w) as (Ha & Hw & Hr).
  exists j. split_and!; try done.
  intros Hf. destruct (Hfail Hf) as [-> ->]. done.
Qed.

Lemma restart_stored_dom db config w :
  dom (stored w) ⊆ dom (stored (restart db config w)).
Proof.
  unfold restart.
  destruct (syncCollection_invariants db config w)
    as (j & _ & _ & _ & _ & _ & _ & Hd).
  by destruct (syncCollection db config w) as [[[] | e] w'].
Qed.

Lemma react_stored_dom config feed_closes w ev :
  is_delete_change ev = false ->
  dom (stored w) ⊆ dom (stored (react config feed_closes w ev)).
Proof.
  destruct ev as [sid change | sid message | ms | db]; simpl; intros Hnd.
  - destruct (stream_open sid w); [| done]. unfold run.
    rewrite on_change_run.
    destruct (toString _); [| done]. cbv zeta.
    destruct (operationType change); try done;
      (destruct (fullDocument change) as [fd |]; [| done];
       destruct (transform config fd) as [[doc |] | e]; try done;
       destruct (next_fails w); [done |]; simpl; apply dom_insert_subseteq).
  - destruct (stream_open sid w); [| done]. by destruct feed_closes.
  - done.
  - destruct (timers w) as [| due later]; [done |].
    destruct (due <=? clock w)%N; [| done].
    apply (restart_stored_dom db config (set_timers later w)).
Qed.

(** The process removes a document from the index on a delete event
    only: along an execution without one (changes of the other kinds,
    stream errors, the passing of time, timers and the restarts they
    start, rejected writes included), every id that was in the index is
    still in it. *)
Theorem only_delete_events_remove (config : SyncConfig) (feed_closes : bool)
    (events : list event) (w : World) :
  Forall (fun ev => is_delete_change ev = false) events ->
  dom (stored w) ⊆ dom (stored (execute config feed_closes events w)).
Proof.
  unfold execute. intros Hev. revert w.
  induction Hev as [| ev events Hnd _ IH]; intros w; [done |].
  simpl. etrans; [by apply (react_stored_dom config feed_closes w ev) | apply IH].
Qed.
End SyncInvariants.

Section BulkOutcome.
Context {rt : Runtime}.

(** If the loop ends normally, the transform threw on no record it read. *)
Lemma bulk_loop_Ok_transforms config db B fuel :
  0 < B ->
  forall skip total w r w',
    bulk_loop fuel db config B skip total w = (Ok (Some r), w') ->
    Forall (transforms config) (drop skip db).
Proof.
  intros HB. induction fuel as [| fuel IH]; intros skip total w r w'; [done |].
  rewrite bulk_loop_S, page_at_pos by done. cbv zeta.
  destruct (length (take B (drop skip db)) =? 0)%nat eqn:Epage.
  { intros _. apply Nat.eqb_eq in Epage. rewrite length_take in Epage.
    assert (Hnil : drop skip db = []) by (apply length_zero_iff_nil; lia).
    rewrite Hnil. constructor. }
  destruct (map_result _ _) as [ts |] eqn:Ets; [| done].
  apply map_result_Ok_Forall in Ets.
  assert (Hstep : Forall (transforms config) (drop (skip + B) db) ->
                  Forall (transforms config) (drop skip db)).
  { intros Hlater. rewrite <- (take_drop B (drop skip db)).
    apply Forall_app. split; [done |]. by rewrite drop_drop. }
  destruct (0 <? _)%nat.
  - destruct (addDocuments _ _) as [[[] | e] w2]; [| done].
    intros Hrun. apply Hstep. by eapply IH.
  - intros Hrun. apply Hstep. by eapply IH.
Qed.

Lemma bulk_load_outcome db config B w :
  0 < B ->
  is_Ok (fst (bulk_load db config B w)) = true ->
  Forall (transforms config) db.
Proof.
  intros HB. unfold bulk_load, mbind, M_bind.
  destruct (bulk_loop _ _ _ _ _ _ _) as [[[total |] | e] w'] eqn:E; simpl.
  - intros _. rewrite <- (drop_0 db). by eapply bulk_loop_Ok_transforms.
  - intros _. exfalso.
    apply (bulk_loop_enough_fuel config db B (S (length db)) HB 0 0 w).
    + rewrite drop_0. lia.
    + by rewrite E.
  - done.
Qed.

(** One record on which the transform throws, wherever it is in the
    collection, makes [syncCollection] throw before the change stream is
    opened: no listener is attached and no restart is scheduled, and
    neither is when the rejection is logged, as [main] does. *)
Theorem failing_record_stops_pipeline (db : list record) (config : SyncConfig)
    (w : World) :
  Exists (fun d => is_Ok (transform config d) = false) db ->
  exists e w',
    syncCollection db config w = (Throw e, w') /\
    streams w' = streams w /\
    timers w' = timers w /\
    streams (start db config w) = streams w /\
    timers (start db config w) = timers w.
Proof.
  intros Hbad.
  assert (Hthrow : is_Ok (fst (syncCollection db config w)) = false).
  { rewrite syncCollection_cases. destruct (setup_fails w); [done |].
    destruct (bulk_load db config batchSize (setup_world config w))
      as [[total | e] w'] eqn:E; [| done].
    exfalso. apply Exists_exists in Hbad as (d & Hd & Hthrows).
    assert (Hall : Forall (transforms config) db).
    { apply (bulk_load_outcome db config batchSize (setup_world config w));
        [unfold batchSize; lia | by rewrite E]. }
    rewrite Forall_forall in Hall. specialize (Hall d Hd).
    unfold transforms in Hall. congruence. }
  pose proof (syncCollection_listeners db config w) as Hl.
  unfold start.
  destruct (syncCollection db config w) as [[[] | e] w']; [done |].
  destruct Hl as (Hs & Ht & _). exists e, w'. by split_and!.
Qed.
End BulkOutcome.


Section BulkFailure.
Context {rt : Runtime}.


End BulkFailure.

Section BulkWrites.
Context {rt : Runtime}.




(** When the index rejects the first batch, the set-up having gone
    through, [syncCollection] throws the index's error right after that
    one [addDocuments] call: the call is not retried, no further page is
    read, the content of the index is as it was and no change stream is
    opened. *)
Theorem rejected_batch_aborts_sync (db : list record) (config : SyncConfig)
    (w : World) :
  next_fails w = true ->
  no_admin_faults w ->
  Forall (transforms config) (take 5000 db) ->
  documents_of config (take 5000 db) <> [] ->
  exists w',
    syncCollection db config w = (Throw (ServiceError "write rejected"), w') /\
    journal w' =
      journal w ++ setup_calls config w ++
      [Find 0 5000; AddDocuments (documents_of config (take 5000 db))] /\
    stored w' = stored w /\
    streams w' = streams w /\
    timers w' = timers w.
Proof.
  intros Hfail Haf Hok Hdocs. rewrite syncCollection_run by done.
  unfold bulk_load, mbind, M_bind.
  rewrite bulk_loop_S, page_at_pos by (unfold batchSize; lia).
  cbv zeta.
  rewrite drop_0. change batchSize with 5000.
  destruct (map_result_transforms config (take 5000 db)) as (ts & -> & ->); [done |].
  assert (Hpage : (length (take 5000 db) =? 0)%nat = false).
  { apply Nat.eqb_neq. intros Hnil. apply Hdocs.
    apply length_zero_iff_nil in Hnil. by rewrite Hnil. }
  assert (Hsome : (0 <? length (documents_of config (take 5000 db)))%nat = true).
  { apply Nat.ltb_lt. destruct (documents_of config (take 5000 db)); [done | simpl; lia]. }
  rewrite Hpage, Hsome, addDocuments_run.
  replace (next_fails (log_call (Find 0 5000) (after_setup config w))) with true
    by (symmetry; exact Hfail).
  eexists. split; [done |].
  unfold rejected, log_call, after_setup. cbn [journal stored streams timers].
  by rewrite <- !app_assoc.
Qed.
End BulkWrites.


Section BulkPayloads.
Context {rt : Runtime}.



Lemma upsert_all_lookup_other docs (m : gmap string SearchDocument) i :
  i ∉ (id <$> docs) -> upsert_all docs m !! i = m !! i.
Proof.
  revert m. induction docs as [| d docs IH]; intros m Hi; [done |].
  rewrite fmap_cons, not_elem_of_cons in Hi. destruct Hi as [Hne Hi].
  simpl. rewrite (IH _ Hi). unfold upsert. by rewrite lookup_insert_ne.
Qed.

(** The bulk pass upserts and never removes: in a run of
    [syncCollection] that goes through (a collection the transform
    accepts, no call of the index service failing), a document of the
    index whose id is that of no transformed record is left as it was.
    So the document of a record that was deleted while no listener was
    attached stays in the index. *)
Theorem sync_keeps_other_documents (db : list record) (config : SyncConfig)
    (w : World) (i : string) :
  Forall (transforms config) db ->
  no_faults w ->
  no_admin_faults w ->
  i ∉ (id <$> documents_of config db) ->
  stored (snd (syncCollection db config w)) !! i = stored w !! i.
Proof.
  intros Hok Hnf Haf Hi.
  destruct (syncCollection_spec db config w Hok Hnf Haf)
    as (w' & j & -> & _ & _ & _ & Hst & _).
  cbn [snd]. rewrite Hst. by apply upsert_all_lookup_other.
Qed.


End BulkPayloads.

Section ChangeEffects.
Context {rt : Runtime}.

Lemma on_change_effect config change w :
  next_fails w = false ->
  stored (run (on_change config change) w) = index_effect config change (stored w).
Proof.
  intros Hw. unfold run, index_effect. rewrite on_change_run.
  destruct (toString _) as [docId |]; [| done]. cbv zeta. rewrite Hw.
  destruct (operationType change); try done;
    (destruct (fullDocument change) as [fd |]; [| done];
     by destruct (transform config fd) as [[doc |] | e]).
Qed.

Lemma on_change_no_faults config change w :
  no_faults w -> no_faults (run (on_change config change) w).
Proof.
  intros Hnf. pose proof (no_faults_next w Hnf) as Hw.
  unfold run. rewrite on_change_run.
  destruct (toString _) as [docId |]; [| done]. cbv zeta. rewrite Hw.
  destruct (operationType change); try done;
    try (destruct (fullDocument change) as [fd |]; [| done];
         destruct (transform config fd) as [[doc |] | e]; try done);
    by apply no_faults_log_call, no_faults_written.
Qed.

Lemma index_effect_idempotent config change m :
  index_effect config change (index_effect config change m) =
  index_effect config change m.
Proof.
  unfold index_effect.
  destruct (toString _) as [docId |]; [| done].
  destruct (operationType change);
    try (destruct (fullDocument change) as [fd |]; [| done];
         destruct (transform config fd) as [[doc |] | e]; try done;
         apply insert_insert_eq).
  apply delete_delete_eq.
Qed.

(** Handling the same change event twice leaves the content of the
    index as handling it once does: upserts and deletes go by id, so a
    redelivered event does no harm (no failing write). *)
Theorem change_replay_idempotent (config : SyncConfig) (change : ChangeEvent)
    (w : World) :
  no_faults w ->
  stored (run (on_change config change) (run (on_change config change) w)) =
  stored (run (on_change config change) w).
Proof.
  intros Hnf.
  rewrite on_change_effect
    by (apply no_faults_next; by apply on_change_no_faults).
  rewrite on_change_effect by by apply no_faults_next.
  apply index_effect_idempotent.
Qed.

(** For the [prices] collection, with no failing write and the two
    events handled one after the other.  After an insert, update or
    replace event whose key is the [_id] of its [fullDocument], a record
    the transform accepts, the index holds the document of that record
    under the string of the [_id]; after a delete event with the same
    key, handled next, it holds nothing there, and every other entry is
    as it was before the two events. *)
Theorem upsert_then_delete (op : ChangeOperation) (key fullDoc : record)
    (doc : SearchDocument) (w : World) :
  op <> op_delete ->
  get "_id" key = get "_id" fullDoc ->
  Prices.transform fullDoc = Ok doc ->
  no_faults w ->
  let upserted :=
    run (on_change prices
           {| operationType := op; documentKey := key;
              fullDocument := Some fullDoc |}) w in
  let deleted :=
    run (on_change prices
           {| operationType := op_delete; documentKey := key;
              fullDocument := None |}) upserted in
  stored upserted !! id doc = Some doc /\
  stored deleted !! id doc = None /\
  forall i, i <> id doc -> stored deleted !! i = stored w !! i.
Proof.
  intros Hop Hkey Hdoc Hnf upserted deleted.
  assert (Hid : toString (get "_id" key) = Ok (id doc)).
  { rewrite Hkey. by apply transform_fields in Hdoc as (? & _). }
  assert (Hup : stored upserted = <[id doc := doc]> (stored w)).
  { subst upserted. rewrite on_change_effect by by apply no_faults_next.
    unfold index_effect. cbn [documentKey operationType fullDocument].
    rewrite Hid, prices_transform, Hdoc. by destruct op. }
  assert (Hdel : stored deleted = delete (id doc) (stored upserted)).
  { subst deleted. rewrite on_change_effect
      by (apply no_faults_next; by apply on_change_no_faults).
    unfold index_effect. cbn [documentKey operationType fullDocument].
    by rewrite Hid. }
  rewrite Hdel, Hup. split_and!.
  - apply lookup_insert_eq.
  - apply lookup_delete_eq.
  - intros i Hi. rewrite lookup_delete_ne by done. by rewrite lookup_insert_ne.
Qed.

(** For the [prices] collection.  A change event whose [fullDocument],
    when present, carries the [_id] of its [documentKey] changes at most
    the entry of the index under the string of that [_id]: every other
    entry is as before, whether the write goes through or not. *)
Theorem change_touches_own_entry (change : ChangeEvent) (w : World) (i : string) :
  (forall fullDoc,
      fullDocument change = Some fullDoc ->
      get "_id" fullDoc = get "_id" (documentKey change)) ->
  toString (get "_id" (documentKey change)) <> Ok i ->
  stored (run (on_change prices change) w) !! i = stored w !! i.
Proof.
  intros Hkey Hi. unfold run. rewrite on_change_run.
  destruct (toString (get "_id" (documentKey change))) as [docId |] eqn:Eid; [| done].
  assert (Hne : docId <> i) by congruence.
  cbv zeta.
  assert (Hupsert : forall fd doc,
             fullDocument change = Some fd ->
             transform prices fd = Ok (Some doc) -> id doc = docId).
  { intros fd doc Hfd Hdoc. rewrite prices_transform in Hdoc.
    apply fmap_Ok in Hdoc as (doc' & Hdoc & [= ->]).
    apply transform_fields in Hdoc as (Hid & _).
    rewrite (Hkey fd Hfd), Eid in Hid. congruence. }
  destruct (operationType change); try done;
    try (destruct (fullDocument change) as [fd |] eqn:Efd; [| done];
         destruct (transform prices fd) as [[doc |] | e] eqn:Edoc; try done;
         destruct (next_fails w); [done |]; simpl;
         unfold upsert; rewrite (Hupsert fd doc eq_refl Edoc);
         by apply lookup_insert_ne).
  destruct (next_fails w); [done |]. simpl. by apply lookup_delete_ne.
Qed.

(** The handler of a change event always returns normally.  It makes
    at most one document write and journals at most two calls, the write
    and one log or error line; streams and timers are as they were. *)
Theorem change_handler_one_write (config : SyncConfig) (change : ChangeEvent)
    (w : World) :
  exists w' j,
    on_change config change w = (Ok (), w') /\
    journal w' = journal w ++ j /\
    length (List.filter is_write j) <= 1 /\
    length j <= 2 /\
    streams w' = streams w /\
    timers w' = timers w.
Proof.
  rewrite on_change_run.
  destruct (toString _) as [docId | e0].
  2:{ eexists _, [_]. split_and!; try done; simpl; lia. }
  cbv zeta.
  destruct (operationType change);
    try (destruct (fullDocument change) as [fd |];
         [destruct (transform config fd) as [[doc |] | e] |]);
    try destruct (next_fails w);
    unfold upsert_line; try destruct (ToString _);
    first
      [ eexists _, []; split_and!; [done | by rewrite app_nil_r | simpl; lia.. | done | done]
      | eexists _, [_]; split_and!; [done | done | simpl; lia.. | done | done]
      | eexists _, [_; _]; split_and!;
        [done | simpl; by rewrite <- app_assoc | simpl; lia.. | done | done] ].
Qed.

End ChangeEffects.

Section References.
Context {rt : Runtime}.

Lemma ref_string_shape v r :
  Prices.ref_string v = Ok r -> string_or_null r = true.
Proof.
  unfold Prices.ref_string. destruct (truthy v).
  - intros H. apply fmap_Ok in H as (s & _ & ->). done.
  - by intros [= <-].
Qed.

Lemma ref_strings_shape v r :
  Prices.ref_strings v = Ok r ->
  length r = length (elements v) /\
  Forall (fun c => typeof_object c = false) r.
Proof.
  unfold Prices.ref_strings.
  destruct v; try (by intros [= <-]). simpl.
  revert r. induction items as [| c rest IH]; intros r H; simpl in H.
  - by injection H as <-.
  - apply bind_Ok in H as (y & Hy & H).
    apply bind_Ok in H as (ys & Hys & H). injection H as <-.
    destruct (IH ys Hys) as [Hlen Hall]. split; [simpl; by rewrite Hlen |].
    constructor; [| done].
    destruct (typeof_object c) eqn:Hc.
    + apply fmap_Ok in Hy as (s & _ & ->). done.
    + by injection Hy as <-.
Qed.

(** In a document the [prices] transform produces, [userId],
    [specOfferId] and [priceId] are strings or [null]; [category] and
    [region] have as many elements as the array they come from (none
    when the field is no array), and no element is of type object:
    references reach the index as strings. *)
Theorem references_flattened (d : record) (doc : SearchDocument) :
  Prices.transform d = Ok doc ->
  string_or_null (userId doc) = true /\
  string_or_null (specOfferId doc) = true /\
  string_or_null (priceId doc) = true /\
  length (category doc) = length (elements (get "Category" d)) /\
  Forall (fun c => typeof_object c = false) (category doc) /\
  length (region doc) = length (elements (get "Region" d)) /\
  Forall (fun c => typeof_object c = false) (region doc).
Proof.
  intros H.
  apply transform_fields in H
    as (_ & _ & _ & _ & _ & _ & Hu & Hs & Hp & Hc & Hr & _).
  apply ref_strings_shape in Hc as [? ?]. apply ref_strings_shape in Hr as [? ?].
  split_and!; try done; by eapply ref_string_shape.
Qed.
End References.

Lemma creations_app j1 j2 : creations (j1 ++ j2) = creations j1 + creations j2.
Proof. unfold creations. by rewrite List.filter_app, length_app. Qed.

Lemma creations_one c : creations [c] = if is_create c then 1 else 0.
Proof. unfold creations. simpl. by destruct (is_create c). Qed.

Lemma creations_not_admin j :
  Forall (fun c => is_admin c = false) j -> creations j = 0.
Proof.
  unfold creations. induction 1 as [| c j Hc _ IH]; [done |].
  simpl. by destruct c.
Qed.

Section IndexCreation.
Context {rt : Runtime}.

(** A run of [syncCollection] whose administration calls are all
    answered creates the index when it is missing, and only then. *)
Lemma syncCollection_creations db config w :
  admin_faults w = [] ->
  index_exists (snd (syncCollection db config w)) = true /\
  admin_faults (snd (syncCollection db config w)) = [] /\
  creations (journal (snd (syncCollection db config w))) =
    creations (journal w) + (if index_exists w then 0 else 1).
Proof.
  intros Haf.
  destruct (syncCollection_invariants db config w)
    as (j & Hj & Hadmin & _ & _ & Hi & Ha & _).
  apply creations_not_admin in Hadmin.
  assert (Hfail : setup_fails w = false).
  { unfold setup_fails, create_fails, update_fails, probe_throws.
    rewrite Haf. simpl. by destruct (index_exists w). }
  assert (Hsetup : creations (setup_trace config w) = if index_exists w then 0 else 1).
  { unfold setup_trace, create_fails, update_fails, probe_throws.
    rewrite Haf. simpl. by destruct (index_exists w). }
  rewrite (Hi Hfail), Ha, Hj, !creations_app, Hsetup, Hadmin.
  unfold setup_world. cbn [admin_faults]. rewrite Haf, drop_nil.
  split_and!; try done. destruct (index_exists w); lia.
Qed.

Lemma start_creations db config w :
  admin_faults w = [] ->
  index_exists (start db config w) = true /\
  admin_faults (start db config w) = [] /\
  creations (journal (start db config w)) =
    creations (journal w) + (if index_exists w then 0 else 1).
Proof.
  intros Haf. unfold start.
  pose proof (syncCollection_creations db config w Haf) as H.
  destruct (syncCollection db config w) as [[[] | e] w']; cbn [snd] in H; [done |].
  destruct H as (Hi & Ha & Hc).
  unfold run, console_error, record_call, log_call.
  cbn [snd journal index_exists admin_faults].
  rewrite creations_app, creations_one, Hc. simpl. split_and!; try done; lia.
Qed.

Lemma restart_creations db config w :
  admin_faults w = [] ->
  index_exists (restart db config w) = true /\
  admin_faults (restart db config w) = [] /\
  creations (journal (restart db config w)) =
    creations (journal w) + (if index_exists w then 0 else 1).
Proof.
  intros Haf. unfold restart.
  pose proof (syncCollection_creations db config w Haf) as H.
  destruct (syncCollection db config w) as [[[] | e] w']; cbn [snd] in H; [done |].
  destruct H as (Hi & Ha & Hc).
  unfold exit, log_call. cbn [journal index_exists admin_faults].
  rewrite creations_app, creations_one, Hc. simpl. split_and!; try done; lia.
Qed.

Lemma on_change_creations config change w :
  index_exists (run (on_change config change) w) = index_exists w /\
  admin_faults (run (on_change config change) w) = admin_faults w /\
  creations (journal (run (on_change config change) w)) = creations (journal w).
Proof.
  unfold run. rewrite on_change_run.
  destruct (toString _) as [docId | e0].
  2:{ simpl. split_and!; try done. rewrite creations_app, creations_one. simpl. lia. }
  cbv zeta.
  destruct (operationType change);
    try (destruct (fullDocument change) as [fd |];
         [destruct (transform config fd) as [[doc |] | e] |]);
    try destruct (next_fails w);
    unfold upsert_line; try destruct (ToString _); simpl;
    (split_and!; try done); rewrite ?creations_app, ?creations_one; simpl; lia.
Qed.

Lemma react_creations config feed_closes w ev :
  index_exists w = true ->
  admin_faults w = [] ->
  index_exists (react config feed_closes w ev) = true /\
  admin_faults (react config feed_closes w ev) = [] /\
  creations (journal (react config feed_closes w ev)) = creations (journal w).
Proof.
  intros Hie Haf. destruct ev as [sid change | sid message | ms | db]; simpl.
  - destruct (stream_open sid w); [| done].
    destruct (on_change_creations config change w) as (-> & -> & ->). done.
  - destruct (stream_open sid w); [| done].
    destruct feed_closes; simpl; (split_and!; try done);
      rewrite !creations_app, !creations_one; simpl; lia.
  - done.
  - destruct (timers w) as [| due later]; [done |].
    destruct (due <=? clock w)%N; [| done].
    destruct (restart_creations db config (set_timers later w) Haf) as (-> & -> & ->).
    simpl. rewrite Hie. split_and!; try done; lia.
Qed.

(** Along an execution that starts with [main], with an index service
    that answers the administration calls, the process calls
    [createIndex] once when the index was missing at start-up and never
    when it was there: a restart after a stream error finds the index and
    does not create it again.  From [main] on the index exists. *)
Theorem index_created_at_most_once (db : list record) (events : list event)
    (feed_closes exists_ : bool) (docs : gmap string SearchDocument)
    (faults : list bool) :
  index_exists
    (execute prices feed_closes events (main db (boot exists_ docs faults))) = true /\
  creations
    (journal (execute prices feed_closes events (main db (boot exists_ docs faults)))) =
    if exists_ then 0 else 1.
Proof.
  assert (Hmain : index_exists (main db (boot exists_ docs faults)) = true /\
                  admin_faults (main db (boot exists_ docs faults)) = [] /\
                  creations (journal (main db (boot exists_ docs faults))) =
                    if exists_ then 0 else 1).
  { unfold main, COLLECTIONS_TO_SYNC. cbn [foldl].
    destruct (start_creations db prices (boot exists_ docs faults) eq_refl)
      as (-> & -> & ->).
    done. }
  revert Hmain. generalize (main db (boot exists_ docs faults)).
  unfold execute.
  induction events as [| ev events IH]; intros w (Hie & Haf & Hn); [done |].
  cbn [foldl]. apply IH.
  destruct (react_creations prices feed_closes w ev Hie Haf) as (-> & -> & ->). done.
Qed.
End IndexCreation.

(** * Examples, witnesses and counterexamples *)

Section Examples.
#[local] Existing Instance example_runtime.

(** Scenario C of the specification: an array of two references becomes
    the sequence of their two identifiers, in order. *)
Example transform_anvil : Prices.transform anvil = Ok anvil_document.
Proof. vm_compute. reflexivity. Qed.

(** A [null] among the categories makes the transform throw: [typeof null]
    is ['object'], and [null] has no [toString]. *)
Example transform_null_category :
  Prices.transform record_with_null_category =
    Throw (TypeError "Cannot read properties of null").
Proof. reflexivity. Qed.

(** Scenario A of the specification: twelve records in pages of five are
    read at the offsets 0, 5 and 10, and once more at 15; all twelve
    reach the index. *)
Example twelve_in_pages_of_five :
  let '(total, w) := bulk_load twelve prices 5 (boot false ∅ []) in
  total = Ok 12 /\
  reads (journal w) = [Find 0 5; Find 5 5; Find 10 5; Find 15 5] /\
  size (stored w) = 12.
Proof. vm_compute. auto. Qed.



(** C2, counterexample: a record without [_id] makes the transform throw,
    whatever the runtime. *)
Lemma transform_throws_without_id :
  own_property "_id" record_without_id = None /\
  forall rt : Runtime,
    Prices.transform record_without_id =
      Throw (TypeError "Cannot read properties of undefined").
Proof. split; reflexivity. Qed.

(** C2, witness *)
Lemma transform_total_on_anvil :
  convertible anvil = true /\
  exists doc,
    Prices.transform anvil = Ok doc /\ measure doc = VNull /\ region doc = [].
Proof.
  split; [reflexivity |].
  destruct (transform_total_on_convertible anvil eq_refl)
    as (doc & H & _ & _ & _ & _ & Hm & _ & _ & _ & _ & Hr & _).
  exists doc. split; [exact H |]. split; [apply Hm | apply Hr]; reflexivity.
Defined.

(** C3, witness: a stream error, ten seconds and the firing of the
    timer, after [main] on two records. *)
Lemma listeners_on_running :
  streams (boot false ∅ []) = [] /\
  timers (boot false ∅ []) = [] /\
  active_listeners
    (execute prices true
       [ev_error 0 "connection lost"; ev_elapse 10000; ev_timer [anvil; bolt]]
       running)
  + length
      (timers
         (execute prices true
            [ev_error 0 "connection lost"; ev_elapse 10000; ev_timer [anvil; bolt]]
            running)) <= 1.
Proof.
  split; [reflexivity |]. split; [reflexivity |].
  exact (one_listener_if_feed_closes [anvil; bolt]
           [ev_error 0 "connection lost"; ev_elapse 10000; ev_timer [anvil; bolt]]
           (boot false ∅ []) eq_refl eq_refl).
Defined.

(** A restart that is rejected ends the process: here the collection has
    come to hold a record without [_id].  No listener and no timer are
    left, and the events that follow find nothing to handle them. *)
Example failed_restart_ends_process :
  let w := execute prices true
             [ev_error 0 "connection lost"; ev_elapse 10000;
              ev_timer [anvil; record_without_id]] running in
  last (journal w) =
    Some (UnhandledRejection (TypeError "Cannot read properties of undefined")) /\
  active_listeners w = 0 /\
  timers w = [] /\
  execute prices true [ev_change 0 delete_bolt; ev_timer [anvil]] w = w.
Proof. vm_compute. auto. Qed.

(** The transform throws on a [null] category: witness *)
Lemma null_category_throws :
  get "Category" record_with_null_category = VArr [VNull] /\
  VNull ∈ [VNull] /\
  is_Ok (Prices.transform record_with_null_category) = false.
Proof.
  assert (H1 : get "Category" record_with_null_category = VArr [VNull]) by reflexivity.
  assert (H2 : VNull ∈ [VNull]) by apply list_elem_of_here.
  split; [exact H1 |]. split; [exact H2 |].
  exact (null_reference_throws record_with_null_category [VNull] (or_introl H1) H2).
Defined.


(** C5, witness: the delete of a record, rejected by the index. *)
Lemma rejected_delete_contained :
  toString (get "_id" (documentKey delete_bolt)) = Ok "bolt" /\
  next_fails (boot true ∅ [true]) = true /\
  exists w',
    on_change prices delete_bolt (boot true ∅ [true]) = (Ok (), w') /\
    journal w' =
      [DeleteDocument "bolt";
       ConsoleError (ErrChangeHandler (ServiceError "write rejected"))] /\
    stored w' = ∅.
Proof.
  split; [reflexivity |]. split; [reflexivity |].
  destruct (write_failure_contained prices delete_bolt (boot true ∅ [true])
              "bolt" (DeleteDocument "bolt") eq_refl eq_refl
              (or_introl (conj eq_refl eq_refl)))
    as (w' & Hrun & Hj & Hst & _).
  exists w'. split; [exact Hrun |]. split; [exact Hj | exact Hst].
Defined.

(** C6, witness: the insert of a record. *)
Lemma insert_anvil_dispatch :
  toString (get "_id" (documentKey insert_anvil)) = Ok "65f0c0ffee0000000000a001" /\
  next_fails (boot true ∅ []) = false /\
  exists w',
    on_change prices insert_anvil (boot true ∅ []) = (Ok (), w') /\
    journal w' =
      [AddDocuments [anvil_document];
       ConsoleLog (LogAdded "Anvil" "65f0c0ffee0000000000a001")] /\
    stored w' = {[ "65f0c0ffee0000000000a001" := anvil_document ]}.
Proof.
  split; [reflexivity |]. split; [reflexivity |].
  destruct (change_dispatch prices insert_anvil (boot true ∅ [])
              "65f0c0ffee0000000000a001" eq_refl eq_refl) as (Hupsert & _).
  destruct (Hupsert anvil anvil_document) as (w' & Hrun & Hj & Hst).
  - discriminate.
  - reflexivity.
  - vm_compute. reflexivity.
  - exists w'. split; [exact Hrun |]. split; [exact Hj | exact Hst].
Defined.

(** A name that is an embedded document with a property [toString]: the
    document is written, and the log line of the insert gives way to the
    error of the conversion. *)
Example label_conversion_throws :
  let w := run (on_change prices insert_oddly_named) (boot true ∅ []) in
  size (stored w) = 1 /\
  last (journal w) =
    Some (ConsoleError
            (ErrChangeHandler (TypeError "Cannot convert object to primitive value"))).
Proof. vm_compute. auto. Qed.

(** C7, counterexample: a [Date] that is there does not always give a
    sortable number.  [Date: 0] gives [null]; an invalid [Date] object
    gives NaN, and so does a string that is no date. *)
Lemma present_date_not_sortable :
  (own_property "Date" record_date_zero = Some (VNum 0) /\
   forall rt : Runtime,
     date <$> Prices.transform record_date_zero = Ok VNull) /\
  (own_property "Date" record_invalid_date = Some (VDate None) /\
   forall rt : Runtime,
     date <$> Prices.transform record_invalid_date = Ok (VNum nan)) /\
  (own_property "Date" record_unparsable_date = Some (VStr "soon") /\
   forall rt : Runtime,
     Date_parse "soon" = nan ->
     date <$> Prices.transform record_unparsable_date = Ok (VNum nan)) /\
  sortable_number VNull = false /\
  sortable_number (VNum nan) = false.
Proof.
  repeat split.
  intros rt Hparse. unfold Prices.transform, Prices.timestamp. simpl.
  rewrite Hparse. reflexivity.
Qed.

(** C7, witness: the date of the anvil, a number. *)
Lemma anvil_date_is_time_value :
  Prices.transform anvil = Ok anvil_document /\
  get "Date" anvil = VNum 1700000000000 /\
  truthy (VNum 1700000000000) = true /\
  TimeClip 1700000000000 = Some 1700000000000%Z /\
  date anvil_document = VNum (number_of_Z 1700000000000) /\
  sortable_number (date anvil_document) = true.
Proof.
  assert (H : Prices.transform anvil = Ok anvil_document)
    by (vm_compute; reflexivity).
  assert (Hclip : TimeClip 1700000000000 = Some 1700000000000%Z)
    by (vm_compute; reflexivity).
  split; [exact H |]. split; [reflexivity |]. split; [reflexivity |].
  split; [exact Hclip |].
  destruct (date_is_null_or_time_value anvil anvil_document H)
    as (_ & _ & _ & _ & Hnum & _).
  exact (Hnum _ _ eq_refl eq_refl Hclip).
Defined.


(** C10, witness: [Name] absent, and [Name] the empty string. *)
Lemma empty_name_as_absent :
  "Name" <> "_id" /\
  own_property "Name" unnamed = None /\
  own_property "Name" named_empty = Some (VStr "") /\
  truthy (VStr "") = false /\
  (forall k, k <> "Name" -> own_property k unnamed = own_property k named_empty) /\
  Prices.transform unnamed = Prices.transform named_empty /\
  name <$> Prices.transform named_empty = Ok VNull.
Proof.
  assert (H0 : "Name" <> "_id") by discriminate.
  assert (H : forall k, k <> "Name" ->
                own_property k unnamed = own_property k named_empty).
  { intros k Hk. simpl. destruct (String.eqb_spec k "Name"); [contradiction | reflexivity]. }
  split; [exact H0 |]. repeat (split; [reflexivity |]). split; [exact H |].
  split; [| reflexivity].
  exact (proj1 (falsy_field_as_absent unnamed named_empty "Name" (VStr "")
                  H0 eq_refl eq_refl eq_refl H)).
Defined.

(** The bulk pass over two records in pages of one ends. *)
Lemma bulk_load_of_two_ends :
  0 < 1 /\
  exists w',
    (exists total,
        bulk_loop 3 [anvil; bolt] prices 1 0 0 (boot false ∅ []) =
          (Ok (Some total), w') /\
        bulk_load [anvil; bolt] prices 1 (boot false ∅ []) = (Ok total, w')) \/
    (exists e, bulk_load [anvil; bolt] prices 1 (boot false ∅ []) = (Throw e, w')).
Proof.
  assert (H : 0 < 1) by lia.
  split; [exact H |].
  exact (bulk_load_ends [anvil; bolt] prices 1 (boot false ∅ []) H).
Defined.

(** An insert, a stream error and the restart that follows remove nothing. *)
Lemma inserts_and_restart_remove_nothing :
  Forall (fun ev => is_delete_change ev = false)
    [ev_change 0 insert_anvil; ev_error 0 "connection lost"; ev_elapse 10000;
     ev_timer [anvil]] /\
  dom (stored running) ⊆
    dom (stored (execute prices true
                   [ev_change 0 insert_anvil; ev_error 0 "connection lost";
                    ev_elapse 10000; ev_timer [anvil]] running)).
Proof.
  assert (H : Forall (fun ev => is_delete_change ev = false)
                [ev_change 0 insert_anvil; ev_error 0 "connection lost";
                 ev_elapse 10000; ev_timer [anvil]])
    by (repeat constructor).
  split; [exact H |].
  exact (only_delete_events_remove prices true _ running H).
Defined.

(** A record without [_id] after the anvil: no listener, no restart. *)
Lemma record_without_id_stops_pipeline :
  Exists (fun d => is_Ok (transform prices d) = false) [anvil; record_without_id] /\
  streams (start [anvil; record_without_id] prices (boot false ∅ [])) = [] /\
  timers (start [anvil; record_without_id] prices (boot false ∅ [])) = [].
Proof.
  assert (H : Exists (fun d => is_Ok (transform prices d) = false)
                [anvil; record_without_id])
    by (apply Exists_cons_tl, Exists_cons_hd; reflexivity).
  split; [exact H |].
  destruct (failing_record_stops_pipeline [anvil; record_without_id] prices
              (boot false ∅ []) H) as (e & w' & _ & _ & _ & Hs & Ht).
  split; [exact Hs | exact Ht].
Defined.



(** The index rejects the only batch. *)
Lemma rejected_first_batch :
  next_fails (boot false ∅ [true]) = true /\
  no_admin_faults (boot false ∅ [true]) /\
  Forall (transforms prices) (take 5000 [anvil]) /\
  documents_of prices (take 5000 [anvil]) <> [] /\
  exists w',
    syncCollection [anvil] prices (boot false ∅ [true]) =
      (Throw (ServiceError "write rejected"), w') /\
    stored w' = ∅ /\ streams w' = [].
Proof.
  assert (H1 : next_fails (boot false ∅ [true]) = true) by reflexivity.
  assert (H2 : Forall (transforms prices) (take 5000 [anvil])) by (repeat constructor).
  assert (H3 : documents_of prices (take 5000 [anvil]) <> []) by discriminate.
  assert (H4 : no_admin_faults (boot false ∅ [true])) by constructor.
  split; [exact H1 |]. split; [exact H4 |]. split; [exact H2 |]. split; [exact H3 |].
  destruct (rejected_batch_aborts_sync [anvil] prices (boot false ∅ [true]) H1 H4 H2 H3)
    as (w' & Hrun & _ & Hst & Hs & _).
  exists w'. split; [exact Hrun |]. split; [exact Hst | exact Hs].
Defined.


(** A document under an id of no record outlives the bulk pass. *)
Lemma sync_keeps_old_document :
  Forall (transforms prices) [anvil] /\
  no_faults (boot true {["old" := anvil_document]} []) /\
  no_admin_faults (boot true {["old" := anvil_document]} []) /\
  ("old" ∉ (id <$> documents_of prices [anvil])) /\
  stored (snd (syncCollection [anvil] prices (boot true {["old" := anvil_document]} [])))
    !! "old" = Some anvil_document.
Proof.
  assert (H1 : Forall (transforms prices) [anvil]) by (repeat constructor).
  assert (H2 : no_faults (boot true {["old" := anvil_document]} [])) by constructor.
  assert (H3 : "old" ∉ (id <$> documents_of prices [anvil])).
  { intros H. apply list_elem_of_singleton in H. discriminate. }
  assert (H4 : no_admin_faults (boot true {["old" := anvil_document]} []))
    by constructor.
  split; [exact H1 |]. split; [exact H2 |]. split; [exact H4 |]. split; [exact H3 |].
  rewrite (sync_keeps_other_documents [anvil] prices _ "old" H1 H2 H4 H3).
  reflexivity.
Defined.


(** The insert of the anvil, delivered twice. *)
Lemma insert_anvil_replayed :
  no_faults running /\
  stored (run (on_change prices insert_anvil) (run (on_change prices insert_anvil) running)) =
  stored (run (on_change prices insert_anvil) running).
Proof.
  assert (H : no_faults running) by constructor.
  split; [exact H |].
  exact (change_replay_idempotent prices insert_anvil running H).
Defined.

(** The anvil replaced: its document is in the index under its id. *)
Lemma anvil_upserted_then_deleted :
  op_replace <> op_delete /\
  get "_id" (documentKey insert_anvil) = get "_id" anvil /\
  Prices.transform anvil = Ok anvil_document /\
  no_faults running /\
  stored (run (on_change prices
                 {| operationType := op_replace;
                    documentKey := documentKey insert_anvil;
                    fullDocument := Some anvil |}) running)
    !! "65f0c0ffee0000000000a001" = Some anvil_document.
Proof.
  assert (H1 : op_replace <> op_delete) by discriminate.
  assert (H2 : get "_id" (documentKey insert_anvil) = get "_id" anvil) by reflexivity.
  assert (H3 : Prices.transform anvil = Ok anvil_document) by (vm_compute; reflexivity).
  assert (H4 : no_faults running) by constructor.
  split; [exact H1 |]. split; [exact H2 |]. split; [exact H3 |]. split; [exact H4 |].
  exact (proj1 (upsert_then_delete op_replace (documentKey insert_anvil) anvil
                  anvil_document running H1 H2 H3 H4)).
Defined.

(** The insert of the anvil leaves the bolt's entry as it was. *)
Lemma insert_anvil_leaves_bolt :
  (forall fullDoc,
      fullDocument insert_anvil = Some fullDoc ->
      get "_id" fullDoc = get "_id" (documentKey insert_anvil)) /\
  toString (get "_id" (documentKey insert_anvil)) <> Ok "bolt" /\
  stored (run (on_change prices insert_anvil) running) !! "bolt" =
  stored running !! "bolt".
Proof.
  assert (H1 : forall fullDoc,
             fullDocument insert_anvil = Some fullDoc ->
             get "_id" fullDoc = get "_id" (documentKey insert_anvil)).
  { intros fullDoc [= <-]. reflexivity. }
  assert (H2 : toString (get "_id" (documentKey insert_anvil)) <> Ok "bolt")
    by discriminate.
  split; [exact H1 |]. split; [exact H2 |].
  exact (change_touches_own_entry insert_anvil running "bolt" H1 H2).
Defined.

(** The two categories of the anvil, as strings. *)
Lemma anvil_references_flattened :
  Prices.transform anvil = Ok anvil_document /\
  length (category anvil_document) = 2 /\
  Forall (fun c => typeof_object c = false) (category anvil_document).
Proof.
  assert (H : Prices.transform anvil = Ok anvil_document) by (vm_compute; reflexivity).
  split; [exact H |].
  destruct (references_flattened anvil anvil_document H)
    as (_ & _ & _ & Hlen & Hflat & _).
  split; [exact Hlen | exact Hflat].
Defined.
End Examples.
